(** * buzzline-03: the temperature consumer [csv_consumer_mk.py]

    A shallow embedding of [consumers/csv_consumer_mk.py]: the bounded
    rolling window ([collections.deque] with [maxlen]), [detect_stall],
    [process_message] and the run loop of [main].

    Modelling conventions.
    - A value decoded by [json.loads] is a [pyval].  A JSON number is a
      finite number, an [int] or a float alike, and is modelled by the exact
      rational it denotes ([Q]); [NaN] and the infinities, which
      [json.loads] takes too, are outside the model.  Python compares such
      numbers exactly, as is done here.  Their difference is exact here,
      while the interpreter rounds it when a float takes part: a statement
      that depends on the value of a difference carries the hypothesis
      [exact_range], under which nothing is lost.
    - The interpreter is a 64-bit CPython ([sys.maxsize] is [2^63 - 1]).
    - Exceptions are modelled by their class ([exn]); [try]/[except] is
      [try_except].
    - The logger is a writer: every [logger.<level>(...)] call appends one
      [log_entry] carrying its level and the call site.
    - The environment is read once ([load_dotenv]) and holds well-formed
      numerals; it is the record [environ]. *)

From Stdlib Require Import String ZArith QArith Qminmax Bool Lia Lqa List.
Import ListNotations.

Set Implicit Arguments.
Set Warnings "-register-all".

(** ** Python values as produced by [json.loads] *)

Inductive pyval : Type :=
| PNone
| PBool (b : bool)
| PNum (q : Q)
| PStr (s : string)
| PList (l : list pyval)
| PDict (d : list (string * pyval)).

Inductive exn : Type :=
| JSONDecodeError
| AttributeError
| TypeError
| ValueError
| OverflowError
| KafkaError (msg : string)
| KeyboardInterrupt
| SystemExit.

(** [KeyboardInterrupt] and [SystemExit] derive from [BaseException] only;
    every other class above derives from [Exception]. *)
Definition is_Exception (e : exn) : bool :=
  match e with
  | KeyboardInterrupt | SystemExit => false
  | _ => true
  end.

Definition is_None (v : pyval) : bool :=
  match v with PNone => true | _ => false end.

(** [bool] is a subclass of [int]: [True] is 1 and [False] is 0. *)
Definition as_number (v : pyval) : option Q :=
  match v with
  | PBool b => Some (if b then 1 else 0)%Q
  | PNum q => Some q
  | _ => None
  end.

Definition Qltb (x y : Q) : bool := negb (Qle_bool y x).

Fixpoint assoc (k : string) (d : list (string * pyval)) : option pyval :=
  match d with
  | [] => None
  | (k', v) :: d' => if String.eqb k k' then Some v else assoc k d'
  end.

(** [a == b]; never raises on decoded JSON. *)
Fixpoint py_eq (a b : pyval) : bool :=
  match a, b with
  | PNone, PNone => true
  | PBool x, PBool y => Bool.eqb x y
  | PBool x, PNum q => Qeq_bool (if x then 1 else 0) q
  | PNum q, PBool y => Qeq_bool q (if y then 1 else 0)
  | PNum p, PNum q => Qeq_bool p q
  | PStr s, PStr t => String.eqb s t
  | PList l, PList m =>
      (fix list_eq (l m : list pyval) : bool :=
         match l, m with
         | [], [] => true
         | x :: l', y :: m' => py_eq x y && list_eq l' m'
         | _, _ => false
         end) l m
  | PDict d, PDict e =>
      Nat.eqb (length d) (length e) &&
      (fix sub (d : list (string * pyval)) : bool :=
         match d with
         | [] => true
         | (k, v) :: d' =>
             match assoc k e with
             | Some v' => py_eq v v'
             | None => false
             end && sub d'
         end) d
  | _, _ => false
  end.

Inductive cmpop : Type := OpLt | OpGt | OpLe.

Definition cmp_Q (op : cmpop) (x y : Q) : bool :=
  match op with
  | OpLt => Qltb x y
  | OpGt => Qltb y x
  | OpLe => Qle_bool x y
  end.

Definition cmp_string (op : cmpop) (s t : string) : bool :=
  match op with
  | OpLt => String.ltb s t
  | OpGt => String.ltb t s
  | OpLe => String.leb s t
  end.

Definition cmp_nat (op : cmpop) (m n : nat) : bool :=
  match op with
  | OpLt => Nat.ltb m n
  | OpGt => Nat.ltb n m
  | OpLe => Nat.leb m n
  end.

(** [a < b], [a > b], [a <= b].  Numbers compare by value, strings and lists
    lexicographically; any other pairing raises [TypeError]. *)
Fixpoint py_richcmp (op : cmpop) (a b : pyval) : exn + bool :=
  match a, b with
  | PStr s, PStr t => inr (cmp_string op s t)
  | PList l, PList m =>
      (fix list_cmp (l m : list pyval) (i j : nat) : exn + bool :=
         match l, m with
         | x :: l', y :: m' =>
             if py_eq x y then list_cmp l' m' i j else py_richcmp op x y
         | _, _ => inr (cmp_nat op i j)
         end) l m (length l) (length m)
  | _, _ =>
      match as_number a, as_number b with
      | Some x, Some y => inr (cmp_Q op x y)
      | _, _ => inl TypeError
      end
  end.

(** [a - b]: defined on numbers only.  The difference is the exact one:
    it is the interpreter's when no rounding takes place (see
    [exact_range]). *)
Definition py_sub (a b : pyval) : exn + pyval :=
  match as_number a, as_number b with
  | Some x, Some y => inr (PNum (x - y))
  | _, _ => inl TypeError
  end.

(** The builtins [max] and [min] over an iterable: the first item is the
    candidate, a later item replaces it when [item > candidate]
    (resp. [item < candidate]); an empty iterable raises [ValueError]. *)
Fixpoint py_select (op : cmpop) (cand : pyval) (rest : list pyval) : exn + pyval :=
  match rest with
  | [] => inr cand
  | item :: rest' =>
      match py_richcmp op item cand with
      | inl e => inl e
      | inr true => py_select op item rest'
      | inr false => py_select op cand rest'
      end
  end.

Definition py_max (l : list pyval) : exn + pyval :=
  match l with
  | [] => inl ValueError
  | x :: rest => py_select OpGt x rest
  end.

Definition py_min (l : list pyval) : exn + pyval :=
  match l with
  | [] => inl ValueError
  | x :: rest => py_select OpLt x rest
  end.

(** [d.get(key)] on a [dict]: the bound value, [None] when the key is absent. *)
Definition dict_get (d : list (string * pyval)) (key : string) : pyval :=
  match assoc key d with
  | Some v => v
  | None => PNone
  end.

(** [data.get(key)]: only a [dict] has the attribute [get]. *)
Definition py_get (data : pyval) (key : string) : exn + pyval :=
  match data with
  | PDict d => inr (dict_get d key)
  | _ => inl AttributeError
  end.

(** ** [collections.deque] with [maxlen] *)

Record deque : Type := { items : list pyval; maxlen : option nat }.

(** The largest [Py_ssize_t] of a 64-bit interpreter ([sys.maxsize]). *)
Definition ssize_max : Z := 9223372036854775807.

(** [deque(maxlen=n)]: [n] is first converted to a [Py_ssize_t], which
    raises [OverflowError] when it does not fit; a negative [maxlen] then
    raises [ValueError]. *)
Definition deque_new (n : Z) : exn + deque :=
  if ((n <? - ssize_max - 1) || (ssize_max <? n))%Z then inl OverflowError
  else if (n <? 0)%Z then inl ValueError
  else inr {| items := []; maxlen := Some (Z.to_nat n) |}.

(** [d.append(x)]: add on the right, then drop the leftmost item when the
    bound is exceeded. *)
Definition deque_append (x : pyval) (d : deque) : deque :=
  let l := items d ++ [x] in
  match maxlen d with
  | Some n => {| items := if (n <? length l)%nat then tl l else l; maxlen := Some n |}
  | None => {| items := l; maxlen := None |}
  end.

(** ** The logger *)

Inductive level : Type := DEBUG | INFO | WARNING | ERROR.

Inductive log_event : Type :=
| KafkaTopic (topic : string)
| ConsumerGroupId (group_id : string)
| MaxStallRange (threshold : Q)
| RollingWindowSize (window_size : Z)
| WindowNotFull (len : nat) (window_size : Z)
| TempRange (temp_range : pyval) (is_stalled : bool)
| RawMessage (message : string)
| ProcessedMessage (data : pyval)
| InvalidMessage (message : string)
| HighTempAlert (timestamp temperature : pyval)
| StallDetected (timestamp temperature : pyval) (window_size : Z)
| JSONDecodeFailure
| UnexpectedError (e : exn)
| StartConsumer
| Listening (topic group_id : string)
| ReceivedMessage (offset : Z) (message : string)
| ConsumerInterrupted
| ConsumerError (e : exn)
| ConsumerClosed (topic : string).

Definition log_entry : Type := (level * log_event)%type.

(** ** A state, exception and log monad *)

Record outcome (S A : Type) : Type :=
  { res : exn + A; st : S; logs : list log_entry }.

Definition M (S A : Type) : Type := S -> outcome S A.

Definition ret {S A} (a : A) : M S A :=
  fun s => {| res := inr a; st := s; logs := [] |}.

Definition raise {S A} (e : exn) : M S A :=
  fun s => {| res := inl e; st := s; logs := [] |}.

Definition bind {S A B} (m : M S A) (f : A -> M S B) : M S B :=
  fun s =>
    let o := m s in
    match res o with
    | inl e => {| res := inl e; st := st o; logs := logs o |}
    | inr a =>
        let o' := f a (st o) in
        {| res := res o'; st := st o'; logs := logs o ++ logs o' |}
    end.

Definition lift {S A} (r : exn + A) : M S A :=
  match r with
  | inl e => raise e
  | inr a => ret a
  end.

Definition tell {S} (lv : level) (ev : log_event) : M S unit :=
  fun s => {| res := inr tt; st := s; logs := [(lv, ev)] |}.

Definition get_state {S} : M S S :=
  fun s => {| res := inr s; st := s; logs := [] |}.

Definition modify {S} (f : S -> S) : M S unit :=
  fun s => {| res := inr tt; st := f s; logs := [] |}.

(** [try: body  except ...: handler]: [handler e] is [None] when no [except]
    clause matches [e], which then propagates. *)
Definition try_except {S A} (body : M S A) (handler : exn -> option (M S A)) : M S A :=
  fun s =>
    let o := body s in
    match res o with
    | inr _ => o
    | inl e =>
        match handler e with
        | None => o
        | Some h =>
            let o' := h (st o) in
            {| res := res o'; st := st o'; logs := logs o ++ logs o' |}
        end
    end.

Declare Scope py_scope.
Delimit Scope py_scope with py.
Notation "x <- m ;; k" := (bind m (fun x => k))
  (at level 100, m at next level, right associativity) : py_scope.
Notation "m ;; k" := (bind m (fun _ => k))
  (at level 100, right associativity) : py_scope.
Open Scope py_scope.

Definition when {S} (b : bool) (m : M S unit) : M S unit :=
  if b then m else ret tt.

(** ** Environment and getters *)

Record environ : Type :=
  { MK_TOPIC : string;
    MK_CONSUMER_GROUP_ID : string;
    MK_STALL_THRESHOLD_F : Q;
    MK_ROLLING_WINDOW_SIZE : Z }.

Section Consumer.

Variable env : environ.

(** [json.loads] on a [str]: [None] stands for a text it refuses, the
    refusal being taken to be [json.JSONDecodeError] (the few texts refused
    with another exception, a number of thousands of digits or a nesting too
    deep, end in the other handler of [process_message]). *)
Variable json_loads : string -> option pyval.

Definition get_kafka_topic {S} : M S string :=
  let topic := MK_TOPIC env in
  tell INFO (KafkaTopic topic) ;;
  ret topic.

Definition get_kafka_consumer_group_id {S} : M S string :=
  let group_id := MK_CONSUMER_GROUP_ID env in
  tell INFO (ConsumerGroupId group_id) ;;
  ret group_id.

Definition get_stall_threshold {S} : M S Q :=
  let threshold := MK_STALL_THRESHOLD_F env in
  tell INFO (MaxStallRange threshold) ;;
  ret threshold.

Definition get_rolling_window_size {S} : M S Z :=
  let window_size := MK_ROLLING_WINDOW_SIZE env in
  tell INFO (RollingWindowSize window_size) ;;
  ret window_size.

(** ** Stall detection *)

Definition detect_stall {S} (rolling_window_deque : deque) : M S bool :=
  WINDOW_SIZE <- get_rolling_window_size ;;
  if (Z.of_nat (length (items rolling_window_deque)) <? WINDOW_SIZE)%Z then
    tell DEBUG (WindowNotFull (length (items rolling_window_deque)) WINDOW_SIZE) ;;
    ret false
  else
    hi <- lift (py_max (items rolling_window_deque)) ;;
    lo <- lift (py_min (items rolling_window_deque)) ;;
    temp_range <- lift (py_sub hi lo) ;;
    threshold <- get_stall_threshold ;;
    is_stalled <- lift (py_richcmp OpLe temp_range (PNum threshold)) ;;
    tell DEBUG (TempRange temp_range is_stalled) ;;
    ret is_stalled.

(** ** Message processing *)

(** The statements of the [try] body that follow the guard: the reading is
    appended to the window, then both rules are evaluated. *)
Definition evaluate_rules (timestamp temperature : pyval) (window_size : Z) : M deque unit :=
  modify (deque_append temperature) ;;
  high <- lift (py_richcmp OpGt temperature (PNum 300)) ;;
  when high (tell WARNING (HighTempAlert timestamp temperature)) ;;
  rolling_window <- get_state ;;
  stalled <- detect_stall rolling_window ;;
  when stalled (tell INFO (StallDetected timestamp temperature window_size)).

Definition process_body (message : string) (window_size : Z) : M deque unit :=
  tell DEBUG (RawMessage message) ;;
  data <- lift (match json_loads message with
                | Some v => inr v
                | None => inl JSONDecodeError
                end) ;;
  temperature <- lift (py_get data "temperature"%string) ;;
  timestamp <- lift (py_get data "timestamp"%string) ;;
  tell INFO (ProcessedMessage data) ;;
  if is_None temperature || is_None timestamp then
    tell ERROR (InvalidMessage message)
  else
    evaluate_rules timestamp temperature window_size.

Definition process_handler (e : exn) : option (M deque unit) :=
  match e with
  | JSONDecodeError => Some (tell ERROR JSONDecodeFailure)
  | _ => if is_Exception e then Some (tell ERROR (UnexpectedError e)) else None
  end.

Definition process_message (message : string) (window_size : Z) : M deque unit :=
  try_except (process_body message window_size) process_handler.

(** ** The run loop of [main] *)

(** What iterating over the Kafka consumer yields: a record carrying its
    [value] and [offset], or an exception raised while polling.  A finite
    list of events is a prefix of the stream; when it is used up the
    iterator is exhausted. *)
Inductive consumer_event : Type :=
| Deliver (value : string) (offset : Z)
| Fails (e : exn).

(** The consumer handle comes from [utils.utils_consumer], which lies
    outside this development: creating it either raises or gives the stream
    of events. *)
Variable create_kafka_consumer : string -> string -> exn + list consumer_event.

Fixpoint consume (window_size : Z) (consumer : list consumer_event) : M deque unit :=
  match consumer with
  | [] => ret tt
  | Deliver message_str offset :: rest =>
      tell DEBUG (ReceivedMessage offset message_str) ;;
      process_message message_str window_size ;;
      consume window_size rest
  | Fails e :: _ => raise e
  end.

Record session : Type := { rolling_window : deque; close_calls : nat }.

Definition zoom {A} (m : M deque A) : M session A :=
  fun s =>
    let o := m (rolling_window s) in
    {| res := res o;
       st := {| rolling_window := st o; close_calls := close_calls s |};
       logs := logs o |}.

Definition consumer_close : M session unit :=
  modify (fun s => {| rolling_window := rolling_window s;
                      close_calls := S (close_calls s) |}).

(** [try: body  finally: cleanup]: the cleanup always runs; an exception of
    the body is raised again after it. *)
Definition try_finally {S A} (body : M S A) (cleanup : M S unit) : M S A :=
  fun s =>
    let o := body s in
    let c := cleanup (st o) in
    {| res := match res c with
              | inl e => inl e
              | inr _ => res o
              end;
       st := st c;
       logs := logs o ++ logs c |}.

Definition main_handler (e : exn) : option (M session unit) :=
  match e with
  | KeyboardInterrupt => Some (tell WARNING ConsumerInterrupted)
  | _ => if is_Exception e then Some (tell ERROR (ConsumerError e)) else None
  end.

Definition main_setup : M unit (string * Z * deque * list consumer_event) :=
  tell INFO StartConsumer ;;
  topic <- get_kafka_topic ;;
  group_id <- get_kafka_consumer_group_id ;;
  window_size <- get_rolling_window_size ;;
  tell INFO (Listening topic group_id) ;;
  rolling_window <- lift (deque_new window_size) ;;
  consumer <- lift (create_kafka_consumer topic group_id) ;;
  ret (topic, window_size, rolling_window, consumer).

Definition main_loop (topic : string) (window_size : Z)
    (consumer : list consumer_event) : M session unit :=
  try_finally
    (try_except (zoom (consume window_size consumer)) main_handler)
    (consumer_close ;; tell INFO (ConsumerClosed topic)).

(** [main]: the final state is [None] when the set-up raised before the
    window and the consumer existed. *)
Definition main : outcome (option session) unit :=
  let o := main_setup tt in
  match res o with
  | inl e => {| res := inl e; st := None; logs := logs o |}
  | inr (topic, window_size, rolling_window, consumer) =>
      let o' := main_loop topic window_size consumer
                  {| rolling_window := rolling_window; close_calls := 0 |} in
      {| res := res o'; st := Some (st o'); logs := logs o ++ logs o' |}
  end.

End Consumer.

(** ** Readings used in the examples *)

Definition reading (timestamp : string) (temperature : pyval) : pyval :=
  PDict [("timestamp"%string, PStr timestamp); ("temperature"%string, temperature)].

Definition default_env : environ :=
  {| MK_TOPIC := "unknown_topic";
     MK_CONSUMER_GROUP_ID := "mk_default_group";
     MK_STALL_THRESHOLD_F := 0.2;
     MK_ROLLING_WINDOW_SIZE := 5 |}.

(** The sequence of [append] calls made by successive events. *)
Definition push_all (xs : list pyval) (d : deque) : deque :=
  fold_left (fun d x => deque_append x d) xs d.

(** The entries that report a high temperature, and those logged as errors. *)
Definition is_high_temp_alert (entry : log_entry) : bool :=
  match snd entry with
  | HighTempAlert _ _ => true
  | _ => false
  end.

Definition is_stall_alert (entry : log_entry) : bool :=
  match snd entry with
  | StallDetected _ _ _ => true
  | _ => false
  end.

Definition is_error (entry : log_entry) : bool :=
  match fst entry with
  | ERROR => true
  | _ => false
  end.

(** The last [n] items of a list. *)
Definition lastn (n : nat) (l : list pyval) : list pyval :=
  skipn (length l - n) l.

(** The range of a window of readings as the design document words it:
    the largest value minus the smallest one. *)
Definition Qmaximum (x : Q) (l : list Q) : Q := fold_left Qmax l x.
Definition Qminimum (x : Q) (l : list Q) : Q := fold_left Qmin l x.

Definition spec_range (qs : list Q) : Q :=
  match qs with
  | [] => 0
  | x :: l => Qmaximum x l - Qminimum x l
  end.

(** Readings whose range the interpreter computes without loss.  Numbers
    are exact rationals here, and so is their difference; the interpreter
    rounds the difference of two floats, and turns an [int] into a float
    before it subtracts a float from it.  Nothing is lost, whether the
    readings are [int]s or floats, when every reading is a multiple of
    [2^-k] (as all floats of a binade are) of magnitude at most [2^53], and
    the range counts at most [2^53] steps of [2^-k]: the difference then is
    a float itself.  [k] is at most 1074, the exponent of the smallest
    float. *)
Definition is_multiple (k : nat) (q : Q) : bool :=
  (Qden (Qred (q * inject_Z (2 ^ Z.of_nat k))) =? 1)%positive.

Definition exact_range (k : nat) (qs : list Q) : bool :=
  (k <=? 1074)%nat
  && forallb (fun q => Qle_bool (- inject_Z (2 ^ 53)) q
                       && Qle_bool q (inject_Z (2 ^ 53))
                       && is_multiple k q) qs
  && Qle_bool (spec_range qs * inject_Z (2 ^ Z.of_nat k)) (inject_Z (2 ^ 53)).

(** ** Sample payloads *)

Definition dquote : string := String (Ascii.ascii_of_nat 34) EmptyString.

Definition json_text (s : string) : string := (dquote ++ s ++ dquote)%string.

(** The text of a message with both fields, the temperature given as JSON
    text. *)
Definition json_reading (timestamp temperature : string) : string :=
  ("{" ++ json_text "timestamp" ++ ": " ++ json_text timestamp ++ ", "
       ++ json_text "temperature" ++ ": " ++ temperature ++ "}")%string.

Definition hot_message : string :=
  json_reading "2025-01-11T18:15:00Z" (json_text "hot").
Definition high_message : string := json_reading "2025-01-11T18:16:00Z" "310".
Definition ceiling_message : string := json_reading "2025-01-11T18:17:00Z" "300".
Definition above_message : string := json_reading "2025-01-11T18:18:00Z" "300.01".
Definition null_message : string := json_reading "2025-01-11T18:19:00Z" "null".
Definition missing_message : string :=
  ("{" ++ json_text "timestamp" ++ ": " ++ json_text "2025-01-11T18:20:00Z" ++ "}")%string.

(** [json.loads] on the sample payloads.  The only other text passed to it
    below is ["not json"], which does not decode. *)
Definition sample_payloads : list (string * pyval) :=
  [ (hot_message, reading "2025-01-11T18:15:00Z" (PStr "hot"));
    (high_message, reading "2025-01-11T18:16:00Z" (PNum 310));
    (ceiling_message, reading "2025-01-11T18:17:00Z" (PNum 300));
    (above_message, reading "2025-01-11T18:18:00Z" (PNum 300.01));
    (null_message, reading "2025-01-11T18:19:00Z" PNone);
    (missing_message, PDict [("timestamp"%string, PStr "2025-01-11T18:20:00Z")]) ].

Definition sample_loads (message : string) : option pyval :=
  assoc message sample_payloads.

Definition empty_window : deque := {| items := []; maxlen := Some 5%nat |}.

(** ** Well-formed and rejected payloads *)

(** A valid record: an object carrying a timestamp string and a numeric
    temperature. *)
Definition valid_record (data : pyval) : Prop :=
  exists d timestamp t,
    data = PDict d /\
    dict_get d "timestamp" = PStr timestamp /\
    dict_get d "temperature" = PNum t.

(** A malformed event: its payload does not decode to a valid record. *)
Definition malformed (json_loads : string -> option pyval) (message : string) : Prop :=
  forall data, json_loads message = Some data -> ~ valid_record data.

(** The payloads the guard of [process_message] and its handlers reject:
    text that is not JSON, JSON that is not an object, and an object whose
    temperature or timestamp is missing or null. *)
Definition rejected (json_loads : string -> option pyval) (message : string) : Prop :=
  json_loads message = None \/
  (exists data, json_loads message = Some data /\ forall d, data <> PDict d) \/
  (exists d, json_loads message = Some (PDict d) /\
             (dict_get d "temperature" = PNone \/ dict_get d "timestamp" = PNone)).

Unset Implicit Arguments.

Definition zero_size_env : environ :=
  {| MK_TOPIC := "unknown_topic";
     MK_CONSUMER_GROUP_ID := "mk_default_group";
     MK_STALL_THRESHOLD_F := 0.2;
     MK_ROLLING_WINDOW_SIZE := 0 |}.

(** * The producer [csv_producer_mk.py]

    The producer has its own getters and its own [main]; they live in a
    module of their own.  The world it talks to is a parameter: what opening
    the data file gives at each pass (the rows as [csv.DictReader] hands
    them out, a field being bound to its text, or to [None] when the line is
    too short), the clock, the parser behind [float], and the Kafka calls.
    The environment is taken as read: [SMOKER_INTERVAL_SECONDS] holds an
    integer.  Numbers are exact rationals, as for the consumer. *)

Module Producer.

Inductive exn : Type :=
| FileNotFoundError
| OSError (msg : string)
| ValueError
| TypeError
| OverflowError
| KafkaError (msg : string)
| KeyboardInterrupt
| SystemExit (code : Z).

Definition is_Exception (e : exn) : bool :=
  match e with
  | KeyboardInterrupt | SystemExit _ => false
  | _ => true
  end.

Definition row : Type := list (string * pyval).

Inductive log_event : Type :=
| KafkaTopic (topic : string)
| MessageInterval (interval : Z)
| OpeningDataFile
| MissingTemperature (r : row)
| GeneratedMessage (message : pyval)
| FileNotFound
| UnexpectedError (e : exn)
| StartProducer
| DataFileNotFound
| ProducerNotCreated
| TopicError (topic : string) (e : exn)
| Sent (message : pyval)
| ProducerInterrupted
| ProductionError (e : exn)
| ProducerClosed
| EndProducer.

Definition log_entry : Type := (level * log_event)%type.

Record environ : Type :=
  { SMOKER_TOPIC : string;
    SMOKER_INTERVAL_SECONDS : Z }.

(** The message built from a row. *)
Definition message_of (timestamp : string) (temperature : Q) : pyval :=
  PDict [("timestamp"%string, PStr timestamp); ("temperature"%string, PNum temperature)].

(** Where the generator stands between two [next] calls: how often the file
    has been opened, how often the clock has been read, and the rows of the
    open file still to be read ([None] before the first [next]). *)
Record gen_state : Type :=
  { passes : nat; clock : nat; pending : option (list row) }.

Definition gen_start : gen_state := {| passes := 0; clock := 0; pending := None |}.

(** What a [next] call on the generator comes back with; [Spinning] stands
    for a call that has not come back within the passes it was given. *)
Inductive gen_result : Type :=
| Yielded (message : pyval) (st : gen_state)
| Raised (e : exn)
| Spinning.

Inductive rows_result : Type :=
| RowYield (message : pyval) (rest : list row) (clock : nat)
| RowRaise (e : exn)
| RowsDone (clock : nat).

(** How the send loop of [main] stands: it ended on an exception, or it is
    still running after the messages it was given. *)
Inductive loop_end : Type :=
| LoopRaised (e : exn)
| LoopRunning.

Inductive status : Type :=
| Returned
| Exited (e : exn)
| Running.

Record result : Type :=
  { exit : status; sent : list pyval; close_calls : nat; logs : list log_entry }.

(** The largest number of seconds whose count of nanoseconds fits in 64
    bits: [(2^63 - 1) / 10^9]. *)
Definition sleep_max : Z := 9223372036.

(** ["temperature" in row]. *)
Definition has_temperature (r : row) : bool :=
  match assoc "temperature" r with
  | Some _ => true
  | None => false
  end.

Definition is_error (entry : log_entry) : bool :=
  match fst entry with
  | ERROR => true
  | _ => false
  end.

Definition is_opening (entry : log_entry) : bool :=
  match snd entry with
  | OpeningDataFile => true
  | _ => false
  end.

Section World.

Variable env : environ.
Variable open_file : nat -> exn + list row.
Variable utcnow : nat -> string.
Variable parse_float : string -> option Q.

Definition get_kafka_topic : list log_entry * string :=
  let topic := SMOKER_TOPIC env in
  ([(INFO, KafkaTopic topic)], topic).

Definition get_message_interval : list log_entry * Z :=
  let interval := SMOKER_INTERVAL_SECONDS env in
  ([(INFO, MessageInterval interval)], interval).

(** [float(v)]: text is parsed, a number is kept, anything else is a
    [TypeError]. *)
Definition py_float (v : pyval) : exn + Q :=
  match v with
  | PStr s =>
      match parse_float s with
      | Some q => inr q
      | None => inl ValueError
      end
  | PNum q => inr q
  | PBool b => inr (if b then 1 else 0)
  | _ => inl TypeError
  end.

(** The temperature a row gives: the field is there and [float] takes it. *)
Definition row_temperature (r : row) : option Q :=
  match assoc "temperature" r with
  | Some v =>
      match py_float v with
      | inr q => Some q
      | inl _ => None
      end
  | None => None
  end.

(** The messages built from the temperatures [qs], the first one stamped
    with the reading number [clock] of the clock. *)
Fixpoint messages_from (clock : nat) (qs : list Q) : list pyval :=
  match qs with
  | [] => []
  | q :: qs' => message_of (utcnow clock) q :: messages_from (S clock) qs'
  end.

(** The two [except] clauses of [generate_messages]. *)
Definition generate_handler (e : exn) : list log_entry * gen_result :=
  match e with
  | FileNotFoundError => ([(ERROR, FileNotFound)], Raised (SystemExit 1))
  | _ =>
      if is_Exception e
      then ([(ERROR, UnexpectedError e)], Raised (SystemExit 3))
      else ([], Raised e)
  end.

(** The [for row in csv_reader] loop, up to its next [yield]. *)
Fixpoint for_rows (rows : list row) (clock : nat) : list log_entry * rows_result :=
  match rows with
  | [] => ([], RowsDone clock)
  | r :: rest =>
      match assoc "temperature" r with
      | None =>
          let (l, res) := for_rows rest clock in
          ((WARNING, MissingTemperature r) :: l, res)
      | Some v =>
          let timestamp := utcnow clock in
          match py_float v with
          | inl e => ([], RowRaise e)
          | inr q =>
              let message := message_of timestamp q in
              ([(DEBUG, GeneratedMessage message)], RowYield message rest (S clock))
          end
      end
  end.

(** The body of [while True], from its top; [fuel] bounds the number of
    times the file is opened. *)
Fixpoint from_top (fuel : nat) (passes clock : nat) : list log_entry * gen_result :=
  match fuel with
  | O => ([], Spinning)
  | S fuel' =>
      match open_file passes with
      | inl e =>
          let (l, r) := generate_handler e in
          ((INFO, OpeningDataFile) :: l, r)
      | inr rows =>
          let (l, res) := for_rows rows clock in
          match res with
          | RowYield message rest c =>
              ((INFO, OpeningDataFile) :: l,
               Yielded message {| passes := S passes; clock := c; pending := Some rest |})
          | RowRaise e =>
              let (l', r) := generate_handler e in
              ((INFO, OpeningDataFile) :: l ++ l', r)
          | RowsDone c =>
              let (l', r) := from_top fuel' (S passes) c in
              ((INFO, OpeningDataFile) :: l ++ l', r)
          end
      end
  end.

(** One [next] on [generate_messages(file_path)]. *)
Definition generate_messages (fuel : nat) (st : gen_state) : list log_entry * gen_result :=
  match pending st with
  | None => from_top fuel (passes st) (clock st)
  | Some rows =>
      let (l, res) := for_rows rows (clock st) in
      match res with
      | RowYield message rest c =>
          (l, Yielded message {| passes := passes st; clock := c; pending := Some rest |})
      | RowRaise e =>
          let (l', r) := generate_handler e in
          (l ++ l', r)
      | RowsDone c =>
          let (l', r) := from_top fuel (passes st) c in
          (l ++ l', r)
      end
  end.

(** The Kafka calls and the interruptions of [time.sleep], taken as given:
    the [k]-th [send] and the [k]-th [sleep] either go through or raise. *)
Variable send_error : nat -> pyval -> option exn.
Variable sleep_error : nat -> option exn.
Variable verify_services : option exn.
Variable data_file_exists : bool.
Variable create_kafka_producer : exn + bool.
Variable create_kafka_topic : string -> option exn.

(** [time.sleep(secs)], [secs] an [int]: the length is first converted to
    the interpreter's 64-bit count of nanoseconds, which raises
    [OverflowError] when it does not fit; a negative length then is a
    [ValueError]. *)
Definition time_sleep (k : nat) (secs : Z) : option exn :=
  if ((secs <? - sleep_max) || (sleep_max <? secs))%Z then Some OverflowError
  else if (secs <? 0)%Z then Some ValueError
  else sleep_error k.

(** The [for message in generate_messages(DATA_FILE)] loop of [main], for at
    most [n] messages, the [k]-th being the next one. *)
Fixpoint send_loop (n fuel k : nat) (st : gen_state) (interval_secs : Z)
    : list log_entry * list pyval * loop_end :=
  match n with
  | O => ([], [], LoopRunning)
  | S n' =>
      let (l, r) := generate_messages fuel st in
      match r with
      | Spinning => (l, [], LoopRunning)
      | Raised e => (l, [], LoopRaised e)
      | Yielded message st' =>
          match send_error k message with
          | Some e => (l, [], LoopRaised e)
          | None =>
              match time_sleep k interval_secs with
              | Some e => (l ++ [(INFO, Sent message)], [message], LoopRaised e)
              | None =>
                  let '(l', more, r') := send_loop n' fuel (S k) st' interval_secs in
                  (l ++ (INFO, Sent message) :: l', message :: more, r')
              end
          end
      end
  end.

Definition closing : list log_entry := [(INFO, ProducerClosed); (INFO, EndProducer)].

(** [main], watched for at most [n] turns of its loop, each [next] call on
    the generator being given at most [fuel] passes over the file: [Running]
    says that the loop has not ended by then. *)
Definition main (n fuel : nat) : result :=
  let start := [(INFO, StartProducer)] in
  match verify_services with
  | Some e => {| exit := Exited e; sent := []; close_calls := 0; logs := start |}
  | None =>
      let (l1, topic) := get_kafka_topic in
      let (l2, interval_secs) := get_message_interval in
      let setup := start ++ l1 ++ l2 in
      if negb data_file_exists then
        {| exit := Exited (SystemExit 1); sent := []; close_calls := 0;
           logs := setup ++ [(ERROR, DataFileNotFound)] |}
      else
        match create_kafka_producer with
        | inl e => {| exit := Exited e; sent := []; close_calls := 0; logs := setup |}
        | inr false =>
            {| exit := Exited (SystemExit 3); sent := []; close_calls := 0;
               logs := setup ++ [(ERROR, ProducerNotCreated)] |}
        | inr true =>
            match create_kafka_topic topic with
            | Some e =>
                if is_Exception e
                then {| exit := Exited (SystemExit 1); sent := []; close_calls := 0;
                        logs := setup ++ [(ERROR, TopicError topic e)] |}
                else {| exit := Exited e; sent := []; close_calls := 0; logs := setup |}
            | None =>
                let '(l, messages, r) := send_loop n fuel 0 gen_start interval_secs in
                match r with
                | LoopRunning =>
                    {| exit := Running; sent := messages; close_calls := 0;
                       logs := setup ++ l |}
                | LoopRaised KeyboardInterrupt =>
                    {| exit := Returned; sent := messages; close_calls := 1;
                       logs := setup ++ l ++ (WARNING, ProducerInterrupted) :: closing |}
                | LoopRaised e =>
                    if is_Exception e
                    then {| exit := Returned; sent := messages; close_calls := 1;
                            logs := setup ++ l ++ (ERROR, ProductionError e) :: closing |}
                    else {| exit := Exited e; sent := messages; close_calls := 1;
                            logs := setup ++ l ++ closing |}
                end
            end
        end
  end.

(** What [main] logs before it looks for the data file. *)
Definition setup_logs : list log_entry :=
  [(INFO, StartProducer);
   (INFO, KafkaTopic (SMOKER_TOPIC env));
   (INFO, MessageInterval (SMOKER_INTERVAL_SECONDS env))].

(** The set-up of [main] goes through: the services answer, the data file
    is there, the producer is created and so is the topic. *)
Definition ready : Prop :=
  verify_services = None /\
  data_file_exists = true /\
  create_kafka_producer = inr true /\
  create_kafka_topic (SMOKER_TOPIC env) = None.

End World.

(** A generator that has yielded [k] messages from a file that reads [rows]
    at every pass: the rows still to come are a tail of [rows], and [k]
    counts the rows read so far, over all the passes. *)
Definition in_cycle (rows : list row) (k : nat) (st : gen_state) : Prop :=
  clock st = k /\
  match pending st with
  | None => k mod length rows = 0%nat
  | Some todo =>
      exists j, (j <= length rows)%nat /\ todo = skipn j rows /\
                k mod length rows = j mod length rows
  end.

(** ** A world used in the examples *)

Definition sample_env : environ :=
  {| SMOKER_TOPIC := "unknown_topic"; SMOKER_INTERVAL_SECONDS := 1 |}.

Definition hasty_env : environ :=
  {| SMOKER_TOPIC := "unknown_topic"; SMOKER_INTERVAL_SECONDS := -1 |}.

Definition sample_row (temperature : string) : row :=
  [("timestamp"%string, PStr "2025-01-01 15:00:00");
   ("temperature"%string, PStr temperature)].

Definition sample_rows : list row :=
  [sample_row "200.5"; sample_row "310"].

(** A row of a file whose header has no [temperature] column. *)
Definition bare_row : row :=
  [("timestamp"%string, PStr "2025-01-01 15:00:00"); ("temp"%string, PStr "200.5")].

Definition sample_float (s : string) : option Q :=
  if String.eqb s "200.5" then Some 200.5
  else if String.eqb s "310" then Some 310
  else None.

Definition sample_clock (k : nat) : string :=
  nth k ["2025-01-01T15:00:00"%string; "2025-01-01T15:00:01"%string;
         "2025-01-01T15:00:02"%string] "2025-01-01T15:00:03"%string.

(** The data file reads the same two rows at every pass; every send and
    every sleep goes through. *)
Definition steady_file (pass : nat) : exn + list row := inr sample_rows.

Definition quiet_send (k : nat) (message : pyval) : option exn := None.

Definition quiet_sleep (k : nat) : option exn := None.

End Producer.

(** ** Induction on nested values *)

Section PyvalInduction.

Variable P : pyval -> Prop.
Hypothesis HNone : P PNone.
Hypothesis HBool : forall b, P (PBool b).
Hypothesis HNum : forall q, P (PNum q).
Hypothesis HStr : forall s, P (PStr s).
Hypothesis HList : forall l, Forall P l -> P (PList l).
Hypothesis HDict : forall d, Forall (fun kv => P (snd kv)) d -> P (PDict d).

Fixpoint pyval_nested_ind (v : pyval) : P v :=
  match v with
  | PNone => HNone
  | PBool b => HBool b
  | PNum q => HNum q
  | PStr s => HStr s
  | PList l =>
      HList l
        ((fix all (l : list pyval) : Forall P l :=
            match l with
            | [] => Forall_nil P
            | x :: l' => Forall_cons x (pyval_nested_ind x) (all l')
            end) l)
  | PDict d =>
      HDict d
        ((fix all (d : list (string * pyval)) : Forall (fun kv => P (snd kv)) d :=
            match d with
            | [] => Forall_nil _
            | kv :: d' =>
                Forall_cons kv
                  (match kv return P (snd kv) with
                   | (_, v) => pyval_nested_ind v
                   end) (all d')
            end) d)
  end.

End PyvalInduction.

(** ** Outcomes, branch by branch *)

(** The outcome of [detect_stall], branch by branch. *)
Definition stall_outcome {S : Type} (env : environ) (w : deque) (s : S) : outcome S bool :=
  let size_entry := (INFO, RollingWindowSize (MK_ROLLING_WINDOW_SIZE env)) in
  let thr_entry := (INFO, MaxStallRange (MK_STALL_THRESHOLD_F env)) in
  if (Z.of_nat (length (items w)) <? MK_ROLLING_WINDOW_SIZE env)%Z then
    {| res := inr false; st := s;
       logs := [size_entry;
                (DEBUG, WindowNotFull (length (items w)) (MK_ROLLING_WINDOW_SIZE env))] |}
  else
    match py_max (items w) with
    | inl e => {| res := inl e; st := s; logs := [size_entry] |}
    | inr hi =>
        match py_min (items w) with
        | inl e => {| res := inl e; st := s; logs := [size_entry] |}
        | inr lo =>
            match py_sub hi lo with
            | inl e => {| res := inl e; st := s; logs := [size_entry] |}
            | inr r =>
                match py_richcmp OpLe r (PNum (MK_STALL_THRESHOLD_F env)) with
                | inl e => {| res := inl e; st := s; logs := [size_entry; thr_entry] |}
                | inr b =>
                    {| res := inr b; st := s;
                       logs := [size_entry; thr_entry; (DEBUG, TempRange r b)] |}
                end
            end
        end
    end.

(** The outcome of the statements after the guard, branch by branch. *)
Definition rules_outcome (env : environ) (timestamp temperature : pyval)
    (window_size : Z) (w : deque) : outcome deque unit :=
  let w' := deque_append temperature w in
  match py_richcmp OpGt temperature (PNum 300) with
  | inl e => {| res := inl e; st := w'; logs := [] |}
  | inr high =>
      let alert :=
        if high then [(WARNING, HighTempAlert timestamp temperature)] else [] in
      let o := detect_stall env w' w' in
      match res o with
      | inl e => {| res := inl e; st := w'; logs := alert ++ logs o |}
      | inr stalled =>
          {| res := inr tt; st := w';
             logs := alert ++ logs o ++
                     (if stalled
                      then [(INFO, StallDetected timestamp temperature window_size)]
                      else []) |}
      end
  end.

Definition with_prefix {S A : Type} (l : list log_entry) (o : outcome S A) : outcome S A :=
  {| res := res o; st := st o; logs := l ++ logs o |}.

Definition is_delivery (ev : consumer_event) : bool :=
  match ev with
  | Deliver _ _ => true
  | Fails _ => false
  end.

(** The window stays within its bound. *)
Definition bounded (n : nat) (w : deque) : Prop :=
  maxlen w = Some n /\ (length (items w) <= n)%nat.

(** A window of size one holds a single reading, so its range is always
    zero: changing that reading by more than the threshold leaves the
    window stalled. *)
Definition single_reading_env : environ :=
  {| MK_TOPIC := "unknown_topic";
     MK_CONSUMER_GROUP_ID := "mk_default_group";
     MK_STALL_THRESHOLD_F := 0;
     MK_ROLLING_WINDOW_SIZE := 1 |}.

(** ** The effect of a run on the window *)

(** The value [process_message] lets through its guard, if any: the
    temperature of an object whose temperature and timestamp are both
    present and not null. *)
Definition accepted (json_loads : string -> option pyval) (message : string)
    : option pyval :=
  match json_loads message with
  | Some (PDict d) =>
      if is_None (dict_get d "temperature") || is_None (dict_get d "timestamp")
      then None
      else Some (dict_get d "temperature")
  | _ => None
  end.

(** The messages a run pulls before the consumer fails or is used up. *)
Fixpoint delivered (events : list consumer_event) : list string :=
  match events with
  | Deliver message _ :: rest => message :: delivered rest
  | _ => []
  end.

Definition accepted_values (json_loads : string -> option pyval)
    (messages : list string) : list pyval :=
  flat_map (fun message =>
              match accepted json_loads message with
              | Some v => [v]
              | None => []
              end) messages.

(** A window of plain numbers. *)
Definition numeric_window (w : deque) (qs : list Q) : Prop :=
  items w = map PNum qs.

(** The readings of a numeric window after one more reading, for a deque of
    the given bound. *)
Definition append_reading (t : Q) (bound : option nat) (qs : list Q) : list Q :=
  let l := qs ++ [t] in
  match bound with
  | Some n => if (n <? length l)%nat then tl l else l
  | None => l
  end.

(** ** The start-up log lines of [main] *)

Definition setup_logs (env : environ) : list log_entry :=
  [(INFO, StartConsumer);
   (INFO, KafkaTopic (MK_TOPIC env));
   (INFO, ConsumerGroupId (MK_CONSUMER_GROUP_ID env));
   (INFO, RollingWindowSize (MK_ROLLING_WINDOW_SIZE env));
   (INFO, Listening (MK_TOPIC env) (MK_CONSUMER_GROUP_ID env))].

Definition negative_size_env : environ :=
  {| MK_TOPIC := "unknown_topic";
     MK_CONSUMER_GROUP_ID := "mk_default_group";
     MK_STALL_THRESHOLD_F := 0.2;
     MK_ROLLING_WINDOW_SIZE := -1 |}.

(** A log entry with the window size of a stall report blanked out. *)
Definition forget_size (entry : log_entry) : log_entry :=
  match entry with
  | (lv, StallDetected timestamp temperature _) =>
      (lv, StallDetected timestamp temperature 0)
  | _ => entry
  end.

(** * Properties *)

(** ** The rolling window *)

Lemma lastn_short (n : nat) (l : list pyval) :
  (length l <= n)%nat -> lastn n l = l.
Proof.
  intros H. unfold lastn.
  replace (length l - n)%nat with 0%nat by lia. reflexivity.
Qed.

Lemma length_lastn (n : nat) (l : list pyval) :
  (length (lastn n l) <= n)%nat.
Proof. unfold lastn. rewrite length_skipn. lia. Qed.

Lemma lastn_app_lastn (n : nat) (a b : list pyval) :
  lastn n (lastn n a ++ b) = lastn n (a ++ b).
Proof.
  destruct (Nat.le_gt_cases (length a) n) as [Hle | Hgt].
  - rewrite (lastn_short n a) by exact Hle. reflexivity.
  - unfold lastn at 1 3.
    rewrite !length_app. unfold lastn. rewrite length_skipn.
    replace (length a - (length a - n) + length b - n)%nat with (length b) by lia.
    replace (length a + length b - n)%nat with (length b + (length a - n))%nat by lia.
    rewrite <- skipn_skipn. f_equal.
    rewrite skipn_app.
    replace (length a - n - length a)%nat with 0%nat by lia. reflexivity.
Qed.

Lemma lastn_app_long (n : nat) (a b : list pyval) :
  (n <= length b)%nat -> lastn n (a ++ b) = lastn n b.
Proof.
  intros H. unfold lastn. rewrite length_app, skipn_app.
  rewrite skipn_all2 by lia. simpl. f_equal. lia.
Qed.

Lemma deque_append_bounded (n : nat) (its : list pyval) (x : pyval) :
  (length its <= n)%nat ->
  deque_append x {| items := its; maxlen := Some n |} =
  {| items := lastn n (its ++ [x]); maxlen := Some n |}.
Proof.
  intros H. unfold deque_append. simpl. f_equal.
  destruct (Nat.ltb_spec n (length (its ++ [x]))) as [Hlt | Hge].
  - rewrite length_app in Hlt. simpl in Hlt.
    unfold lastn. rewrite length_app. simpl.
    replace (length its + 1 - n)%nat with 1%nat by lia.
    destruct its; reflexivity.
  - symmetry. apply lastn_short. exact Hge.
Qed.

Lemma push_all_bounded (n : nat) (xs its : list pyval) :
  (length its <= n)%nat ->
  push_all xs {| items := its; maxlen := Some n |} =
  {| items := lastn n (its ++ xs); maxlen := Some n |}.
Proof.
  revert its. induction xs as [| x xs IH]; intros its H.
  - simpl. rewrite app_nil_r, lastn_short by exact H. reflexivity.
  - simpl. rewrite deque_append_bounded by exact H.
    rewrite IH by apply length_lastn.
    rewrite lastn_app_lastn, <- app_assoc. reflexivity.
Qed.

Lemma deque_new_fresh (ws : Z) (w : deque) :
  deque_new ws = inr w ->
  (0 <= ws)%Z /\ w = {| items := []; maxlen := Some (Z.to_nat ws) |}.
Proof.
  unfold deque_new.
  destruct ((ws <? - ssize_max - 1) || (ssize_max <? ws))%Z; [discriminate |].
  destruct (Z.ltb_spec ws 0) as [Hneg | Hnn]; intros Hw.
  - discriminate Hw.
  - inversion Hw. split; [exact Hnn | reflexivity].
Qed.

(** ** Python comparisons *)

Lemma py_richcmp_numeric (op : cmpop) (a b : pyval) (x y : Q) :
  as_number a = Some x -> as_number b = Some y ->
  py_richcmp op a b = inr (cmp_Q op x y).
Proof.
  destruct a, b; cbn; intros Ha Hb; try discriminate;
    inversion Ha; inversion Hb; reflexivity.
Qed.

(** A comparison can only fail with [TypeError]. *)
Lemma py_richcmp_error (a : pyval) :
  forall (op : cmpop) (b : pyval) (e : exn),
    py_richcmp op a b = inl e -> e = TypeError.
Proof.
  induction a as [| x | p | s | l IH | d _] using pyval_nested_ind;
    intros op b e H.
  1-4, 6: destruct b; cbn in H; try discriminate; try congruence;
    repeat match type of H with
           | context [match ?c with _ => _ end] => destruct c
           end; congruence.
  destruct b as [| y | q | t | m | d]; cbn in H; try discriminate; try congruence.
  set (i := length l) in H. set (j := length m) in H. clearbody i j.
  revert m H. induction IH as [| x l Hx _ IHl]; intros m H.
  - discriminate.
  - destruct m as [| y m]; [discriminate |].
    destruct (py_eq x y).
    + exact (IHl m H).
    + exact (Hx op y e H).
Qed.

Lemma py_select_error (op : cmpop) (rest : list pyval) :
  forall (cand : pyval) (e : exn),
    py_select op cand rest = inl e -> e = TypeError.
Proof.
  induction rest as [| item rest IH]; intros cand e H; cbn in H.
  - discriminate.
  - destruct (py_richcmp op item cand) as [e' | []] eqn:Hc.
    + inversion H; subst. exact (py_richcmp_error _ _ _ _ Hc).
    + exact (IH _ _ H).
    + exact (IH _ _ H).
Qed.

(** ** Stall detection *)

Ltac run_monad :=
  cbv beta iota zeta
    delta [when bind lift tell ret raise get_state modify res st logs app].

Lemma detect_stall_outcome (env : environ) (w : deque) (S : Type) (s : S) :
  detect_stall env w s = stall_outcome env w s.
Proof.
  unfold detect_stall, stall_outcome, get_rolling_window_size, get_stall_threshold.
  run_monad.
  destruct (Z.of_nat (length (items w)) <? MK_ROLLING_WINDOW_SIZE env)%Z; [reflexivity |].
  destruct (py_max (items w)); [reflexivity |].
  destruct (py_min (items w)); [reflexivity |].
  destruct (py_sub _ _); [reflexivity |].
  destruct (py_richcmp _ _ _); reflexivity.
Qed.

Lemma detect_stall_st (env : environ) (w : deque) (S : Type) (s : S) :
  st (detect_stall env w s) = s.
Proof.
  rewrite detect_stall_outcome. unfold stall_outcome.
  repeat match goal with
         | |- context [match ?c with _ => _ end] => destruct c
         end; reflexivity.
Qed.

(** C3: a window shorter than the configured window size is never reported
    as stalled, whatever its values and whatever the threshold:
    [detect_stall] returns [False]. *)
Theorem detect_stall_insufficient_data
    (env : environ) (w : deque) (S : Type) (s : S) :
  (Z.of_nat (length (items w)) < MK_ROLLING_WINDOW_SIZE env)%Z ->
  res (detect_stall env w s) = inr false.
Proof.
  intros H. rewrite detect_stall_outcome. unfold stall_outcome.
  apply Z.ltb_lt in H. rewrite H. reflexivity.
Qed.

Lemma detect_stall_insufficient_data_witness :
  (Z.of_nat (length (items {| items := [PNum 200; PNum 900]; maxlen := Some 5%nat |}))
   < MK_ROLLING_WINDOW_SIZE default_env)%Z /\
  res (detect_stall default_env
         {| items := [PNum 200; PNum 900]; maxlen := Some 5%nat |} tt) = inr false.
Proof.
  split.
  - vm_compute. reflexivity.
  - apply (detect_stall_insufficient_data default_env _ unit tt).
    vm_compute. reflexivity.
Defined.



(** With a window size of zero the guard lets the empty window through and
    [max] raises: the positivity of the window size matters. *)
Example detect_stall_zero_window_size :
  res (detect_stall
         {| MK_TOPIC := "t"; MK_CONSUMER_GROUP_ID := "g";
            MK_STALL_THRESHOLD_F := 0.2; MK_ROLLING_WINDOW_SIZE := 0 |}
         {| items := []; maxlen := Some 0%nat |} tt) = inl ValueError.
Proof. reflexivity. Qed.

(** The two stall scenarios of the design document, window size 5 and
    threshold 0.2: a range of 0.15 is a stall, a range of 10 is not. *)
Example stall_scenario_stable :
  res (detect_stall default_env
         {| items := map PNum [200; 200.1; 200.05; 200.15; 200.1];
            maxlen := Some 5%nat |} tt) = inr true.
Proof. reflexivity. Qed.

Example stall_scenario_moving :
  res (detect_stall default_env
         {| items := map PNum [200; 210; 200; 200; 200];
            maxlen := Some 5%nat |} tt) = inr false.
Proof. reflexivity. Qed.

(** ** Windows of numeric readings *)

Lemma Qmaximum_compat (l : list Q) :
  forall x y : Q, x == y -> Qmaximum x l == Qmaximum y l.
Proof.
  unfold Qmaximum. induction l as [| a l IH]; intros x y H; simpl.
  - exact H.
  - apply IH. rewrite H. reflexivity.
Qed.

Lemma Qminimum_compat (l : list Q) :
  forall x y : Q, x == y -> Qminimum x l == Qminimum y l.
Proof.
  unfold Qminimum. induction l as [| a l IH]; intros x y H; simpl.
  - exact H.
  - apply IH. rewrite H. reflexivity.
Qed.

Lemma Qmaximum_upper (l : list Q) :
  forall x y : Q, In y (x :: l) -> y <= Qmaximum x l.
Proof.
  unfold Qmaximum. induction l as [| a l IH]; intros x y H; simpl.
  - destruct H as [H | []]. subst. apply Qle_refl.
  - destruct H as [H | [H | H]].
    + subst y. apply Qle_trans with (Qmax x a).
      * apply Q.le_max_l.
      * apply IH. left. reflexivity.
    + subst y. apply Qle_trans with (Qmax x a).
      * apply Q.le_max_r.
      * apply IH. left. reflexivity.
    + apply IH. right. exact H.
Qed.

Lemma Qminimum_lower (l : list Q) :
  forall x y : Q, In y (x :: l) -> Qminimum x l <= y.
Proof.
  unfold Qminimum. induction l as [| a l IH]; intros x y H; simpl.
  - destruct H as [H | []]. subst. apply Qle_refl.
  - destruct H as [H | [H | H]].
    + subst y. apply Qle_trans with (Qmin x a).
      * apply IH. left. reflexivity.
      * apply Q.le_min_l.
    + subst y. apply Qle_trans with (Qmin x a).
      * apply IH. left. reflexivity.
      * apply Q.le_min_r.
    + apply IH. right. exact H.
Qed.

Lemma Qmaximum_attained (l : list Q) :
  forall x : Q, exists y, In y (x :: l) /\ y == Qmaximum x l.
Proof.
  unfold Qmaximum. induction l as [| a l IH]; intros x; simpl.
  - exists x. split; [left; reflexivity | reflexivity].
  - destruct (IH (Qmax x a)) as [y [[Hy | Hy] Heq]].
    + destruct (Q.max_dec x a) as [Hm | Hm].
      * exists x. split; [left; reflexivity |].
        rewrite <- Heq, <- Hy. symmetry. exact Hm.
      * exists a. split; [right; left; reflexivity |].
        rewrite <- Heq, <- Hy. symmetry. exact Hm.
    + exists y. split; [right; right; exact Hy | exact Heq].
Qed.

Lemma Qminimum_attained (l : list Q) :
  forall x : Q, exists y, In y (x :: l) /\ y == Qminimum x l.
Proof.
  unfold Qminimum. induction l as [| a l IH]; intros x; simpl.
  - exists x. split; [left; reflexivity | reflexivity].
  - destruct (IH (Qmin x a)) as [y [[Hy | Hy] Heq]].
    + destruct (Q.min_dec x a) as [Hm | Hm].
      * exists x. split; [left; reflexivity |].
        rewrite <- Heq, <- Hy. symmetry. exact Hm.
      * exists a. split; [right; left; reflexivity |].
        rewrite <- Heq, <- Hy. symmetry. exact Hm.
    + exists y. split; [right; right; exact Hy | exact Heq].
Qed.

(** The range bounds every difference of two readings, and is one. *)
Lemma spec_range_le (qs : list Q) (t : Q) :
  spec_range qs <= t <->
  (qs = [] -> 0 <= t) /\ (forall x y, In x qs -> In y qs -> x - y <= t).
Proof.
  destruct qs as [| a l]; simpl.
  - split.
    + intros H. split; [intros _; exact H | intros x y []].
    + intros [H _]. apply H. reflexivity.
  - split.
    + intros H. split; [discriminate |]. intros x y Hx Hy.
      pose proof (Qmaximum_upper l a x Hx) as Hu.
      pose proof (Qminimum_lower l a y Hy) as Hl. lra.
    + intros [_ H].
      destruct (Qmaximum_attained l a) as [x [Hx Ex]].
      destruct (Qminimum_attained l a) as [y [Hy Ey]].
      rewrite <- Ex, <- Ey. apply H; assumption.
Qed.

(** On numbers, Python's [max] returns a greatest item. *)
Lemma py_select_max (qs : list Q) :
  forall q : Q, exists r,
    py_select OpGt (PNum q) (map PNum qs) = inr (PNum r) /\ r == Qmaximum q qs.
Proof.
  induction qs as [| a l IH]; intros q; simpl.
  - exists q. split; reflexivity.
  - unfold Qltb. destruct (Qle_bool a q) eqn:Hc; simpl.
    + destruct (IH q) as [r [Hr Er]]. exists r. split; [exact Hr |].
      rewrite Er. apply Qmaximum_compat. symmetry. apply Q.max_l.
      apply Qle_bool_iff. exact Hc.
    + destruct (IH a) as [r [Hr Er]]. exists r. split; [exact Hr |].
      rewrite Er. apply Qmaximum_compat. symmetry. apply Q.max_r.
      apply Qlt_le_weak. apply Qnot_le_lt. intros Hle.
      apply Qle_bool_iff in Hle. congruence.
Qed.

(** On numbers, Python's [min] returns a least item. *)
Lemma py_select_min (qs : list Q) :
  forall q : Q, exists r,
    py_select OpLt (PNum q) (map PNum qs) = inr (PNum r) /\ r == Qminimum q qs.
Proof.
  induction qs as [| a l IH]; intros q; simpl.
  - exists q. split; reflexivity.
  - unfold Qltb. destruct (Qle_bool q a) eqn:Hc; simpl.
    + destruct (IH q) as [r [Hr Er]]. exists r. split; [exact Hr |].
      rewrite Er. apply Qminimum_compat. symmetry. apply Q.min_l.
      apply Qle_bool_iff. exact Hc.
    + destruct (IH a) as [r [Hr Er]]. exists r. split; [exact Hr |].
      rewrite Er. apply Qminimum_compat. symmetry. apply Q.min_r.
      apply Qlt_le_weak. apply Qnot_le_lt. intros Hle.
      apply Qle_bool_iff in Hle. congruence.
Qed.

(** [detect_stall] on a window of numbers that passes the length guard. *)
Lemma detect_stall_numeric (env : environ) (w : deque) (qs : list Q)
    (S : Type) (s : S) :
  items w = map PNum qs ->
  qs <> [] ->
  (MK_ROLLING_WINDOW_SIZE env <= Z.of_nat (length qs))%Z ->
  res (detect_stall env w s) =
  inr (Qle_bool (spec_range qs) (MK_STALL_THRESHOLD_F env)).
Proof.
  intros Hits Hne Hlen. rewrite detect_stall_outcome. unfold stall_outcome.
  rewrite Hits, length_map.
  destruct (Z.ltb_spec (Z.of_nat (length qs)) (MK_ROLLING_WINDOW_SIZE env))
    as [Hlt | _]; [lia |].
  destruct qs as [| a l]; [congruence |].
  cbn [map py_max py_min].
  destruct (py_select_max l a) as [hi [Hhi Ehi]].
  destruct (py_select_min l a) as [lo [Hlo Elo]].
  rewrite Hhi, Hlo. cbn. f_equal.
  apply Qleb_comp; [| reflexivity].
  rewrite Ehi, Elo. reflexivity.
Qed.





(** ** Message processing, case by case *)

Ltac step_monad :=
  unfold when, bind, lift, tell, ret, raise, get_state, modify;
  cbn [res st logs app].

Lemma detect_stall_error (env : environ) (w : deque) (S : Type) (s : S) (e : exn) :
  res (detect_stall env w s) = inl e -> e = TypeError \/ e = ValueError.
Proof.
  rewrite detect_stall_outcome. unfold stall_outcome.
  destruct (_ <? _)%Z; [discriminate |].
  destruct (items w) as [| x rest]; cbn [py_max py_min].
  { intros H. inversion H. right. reflexivity. }
  destruct (py_select OpGt x rest) as [e1 | hi] eqn:Hmax.
  { intros H. inversion H. subst. left. exact (py_select_error _ _ _ _ Hmax). }
  destruct (py_select OpLt x rest) as [e1 | lo] eqn:Hmin.
  { intros H. inversion H. subst. left. exact (py_select_error _ _ _ _ Hmin). }
  unfold py_sub.
  destruct (as_number hi); [| intros H; inversion H; left; reflexivity].
  destruct (as_number lo); [| intros H; inversion H; left; reflexivity].
  destruct (py_richcmp _ _ _) as [e1 | b] eqn:Hle; [| discriminate].
  intros H. inversion H. subst. left. exact (py_richcmp_error _ _ _ _ Hle).
Qed.

Lemma detect_stall_no_alert (env : environ) (w : deque) (S : Type) (s : S) :
  filter is_high_temp_alert (logs (detect_stall env w s)) = [] /\
  filter is_error (logs (detect_stall env w s)) = [].
Proof.
  rewrite detect_stall_outcome. unfold stall_outcome.
  repeat match goal with
         | |- context [match ?c with _ => _ end] => destruct c
         end; split; reflexivity.
Qed.

Lemma evaluate_rules_outcome (env : environ) (timestamp temperature : pyval)
    (window_size : Z) (w : deque) :
  evaluate_rules env timestamp temperature window_size w =
  rules_outcome env timestamp temperature window_size w.
Proof.
  unfold evaluate_rules, rules_outcome. step_monad.
  destruct (py_richcmp OpGt temperature (PNum 300)) as [e | high];
    cbn [res st logs app]; [reflexivity |].
  pose proof (detect_stall_st env (deque_append temperature w) deque
                (deque_append temperature w)) as Hst.
  destruct high; cbn [res st logs app];
    destruct (detect_stall env (deque_append temperature w) (deque_append temperature w))
      as [[e | stalled] s' l]; cbn [res st logs app] in *; subst s';
    try destruct stalled; cbn [res st logs app]; reflexivity.
Qed.

Lemma evaluate_rules_error (env : environ) (timestamp temperature : pyval)
    (window_size : Z) (w : deque) (e : exn) :
  res (evaluate_rules env timestamp temperature window_size w) = inl e ->
  e = TypeError \/ e = ValueError.
Proof.
  rewrite evaluate_rules_outcome. unfold rules_outcome.
  destruct (py_richcmp OpGt temperature (PNum 300)) as [e1 | high] eqn:Hc.
  - intros H. inversion H. subst. left. exact (py_richcmp_error _ _ _ _ Hc).
  - cbv zeta.
    destruct (res (detect_stall env _ _)) as [e1 | stalled] eqn:Hd; [| discriminate].
    intros H. inversion H. subst. exact (detect_stall_error _ _ _ _ _ Hd).
Qed.

Section ProcessMessage.

Variable env : environ.
Variable json_loads : string -> option pyval.
Variable message : string.
Variable window_size : Z.
Variable w : deque.

Let outcome_of := process_message env json_loads message window_size w.

Lemma process_message_decode_error :
  json_loads message = None ->
  outcome_of =
  {| res := inr tt; st := w;
     logs := [(DEBUG, RawMessage message); (ERROR, JSONDecodeFailure)] |}.
Proof.
  intros H. unfold outcome_of, process_message, process_body, try_except.
  step_monad. rewrite H. reflexivity.
Qed.

Lemma process_message_not_dict (data : pyval) :
  json_loads message = Some data ->
  (forall d, data <> PDict d) ->
  outcome_of =
  {| res := inr tt; st := w;
     logs := [(DEBUG, RawMessage message); (ERROR, UnexpectedError AttributeError)] |}.
Proof.
  intros H Hnd. unfold outcome_of, process_message, process_body, try_except.
  step_monad. rewrite H.
  destruct data; try reflexivity.
  exfalso. exact (Hnd _ eq_refl).
Qed.

Lemma process_message_invalid (d : list (string * pyval)) :
  json_loads message = Some (PDict d) ->
  is_None (dict_get d "temperature") || is_None (dict_get d "timestamp") = true ->
  outcome_of =
  {| res := inr tt; st := w;
     logs := [(DEBUG, RawMessage message); (INFO, ProcessedMessage (PDict d));
              (ERROR, InvalidMessage message)] |}.
Proof.
  intros H Hnone. unfold outcome_of, process_message, process_body, try_except.
  step_monad. rewrite H. cbn [py_get res st logs app]. rewrite Hnone. reflexivity.
Qed.

Lemma process_message_reading (d : list (string * pyval)) :
  json_loads message = Some (PDict d) ->
  is_None (dict_get d "temperature") || is_None (dict_get d "timestamp") = false ->
  outcome_of =
  with_prefix [(DEBUG, RawMessage message); (INFO, ProcessedMessage (PDict d))]
    (try_except
       (evaluate_rules env (dict_get d "timestamp") (dict_get d "temperature") window_size)
       process_handler w).
Proof.
  intros H Hnone. unfold outcome_of, process_message, process_body, try_except, with_prefix.
  step_monad. rewrite H. cbn [py_get res st logs app]. rewrite Hnone.
  destruct (evaluate_rules env _ _ window_size w) as [[e | []] s' l];
    cbn [res st logs app]; [| reflexivity].
  destruct (process_handler e); reflexivity.
Qed.

End ProcessMessage.

Lemma is_None_false (v : pyval) : v <> PNone -> is_None v = false.
Proof. destruct v; intros H; try reflexivity. contradiction. Qed.

(** The handler of [process_message] around the rules: an exception of the
    rules is logged as an unexpected error and swallowed. *)
Lemma rules_handled (env : environ) (timestamp temperature : pyval)
    (window_size : Z) (w : deque) :
  let o := evaluate_rules env timestamp temperature window_size w in
  try_except (evaluate_rules env timestamp temperature window_size) process_handler w =
  match res o with
  | inr _ => o
  | inl e => {| res := inr tt; st := st o;
                logs := logs o ++ [(ERROR, UnexpectedError e)] |}
  end.
Proof.
  intros o. unfold try_except. fold o.
  destruct (res o) as [e | u] eqn:Hres; [| reflexivity].
  destruct (evaluate_rules_error _ _ _ _ _ _ Hres) as [-> | ->]; reflexivity.
Qed.

(** The window after a reading that passes the guard: the temperature has
    been appended, whether or not a rule failed afterwards. *)
Lemma process_message_appends (env : environ) (json_loads : string -> option pyval)
    (message : string) (window_size : Z) (w : deque) (d : list (string * pyval)) :
  json_loads message = Some (PDict d) ->
  is_None (dict_get d "temperature") || is_None (dict_get d "timestamp") = false ->
  st (process_message env json_loads message window_size w) =
  deque_append (dict_get d "temperature") w.
Proof.
  intros Hloads Hok.
  rewrite (process_message_reading env json_loads message window_size w d Hloads Hok).
  rewrite rules_handled. cbv zeta.
  rewrite evaluate_rules_outcome. unfold rules_outcome, with_prefix.
  destruct (py_richcmp OpGt _ _); cbn [res st logs]; [reflexivity |].
  cbv zeta. destruct (res (detect_stall env _ _)); reflexivity.
Qed.

Lemma process_message_returns (env : environ) (json_loads : string -> option pyval)
    (message : string) (window_size : Z) (w : deque) :
  res (process_message env json_loads message window_size w) = inr tt.
Proof.
  destruct (json_loads message) as [data |] eqn:Hloads.
  - destruct data as [| b | q | s | l | d].
    1-5: erewrite process_message_not_dict; [reflexivity | exact Hloads | discriminate].
    destruct (is_None (dict_get d "temperature") || is_None (dict_get d "timestamp"))
      eqn:Hok.
    + erewrite process_message_invalid; [reflexivity | exact Hloads | exact Hok].
    + rewrite (process_message_reading env json_loads message window_size w d Hloads Hok).
      rewrite rules_handled. cbv zeta. unfold with_prefix. cbn [res].
      destruct (res (evaluate_rules env _ _ window_size w)) as [e | []] eqn:Hres;
        [reflexivity | exact Hres].
  - rewrite process_message_decode_error by exact Hloads. reflexivity.
Qed.

Section ReadingAlerts.

Variable env : environ.
Variable json_loads : string -> option pyval.
Variable message : string.
Variable window_size : Z.
Variable w : deque.
Variable d : list (string * pyval).
Variable t : Q.

Hypothesis Hloads : json_loads message = Some (PDict d).
Hypothesis Htemp : as_number (dict_get d "temperature") = Some t.
Hypothesis Htime : dict_get d "timestamp" <> PNone.

Lemma reading_not_rejected :
  is_None (dict_get d "temperature") || is_None (dict_get d "timestamp") = false.
Proof.
  rewrite (is_None_false _ Htime), orb_false_r.
  destruct (dict_get d "temperature"); try reflexivity. discriminate Htemp.
Qed.

(** The high-temperature alerts of one reading. *)
Lemma reading_alerts :
  filter is_high_temp_alert
    (logs (process_message env json_loads message window_size w)) =
  if Qltb 300 t
  then [(WARNING, HighTempAlert (dict_get d "timestamp") (dict_get d "temperature"))]
  else [].
Proof.
  rewrite (process_message_reading env json_loads message window_size w d
             Hloads reading_not_rejected).
  rewrite rules_handled. cbv zeta.
  rewrite evaluate_rules_outcome. unfold rules_outcome, with_prefix.
  rewrite (py_richcmp_numeric OpGt _ (PNum 300) t 300 Htemp eq_refl).
  cbn [cmp_Q]. cbv zeta.
  pose proof (detect_stall_no_alert env
                (deque_append (dict_get d "temperature") w) deque
                (deque_append (dict_get d "temperature") w)) as [Hquiet _].
  set (o := detect_stall env _ _) in *.
  destruct (res o) as [e | stalled];
    destruct (Qltb 300 t); try destruct stalled;
    cbn [res st logs app filter is_high_temp_alert snd];
    rewrite ?filter_app, Hquiet; reflexivity.
Qed.

End ReadingAlerts.

(** ** The high-temperature rule *)

(** C5: the high-temperature rule fires exactly when the reading is strictly
    above 300.  For a reading that passes the guard, [process_message] logs
    one high-temperature alert when [300 < t] and none when [t <= 300]: a
    reading of exactly 300 raises no alert, a reading of 300.01 raises one. *)
Theorem high_temperature_rule_strict
    (env : environ) (json_loads : string -> option pyval) (message : string)
    (window_size : Z) (w : deque) (d : list (string * pyval)) (t : Q) :
  json_loads message = Some (PDict d) ->
  dict_get d "temperature" = PNum t ->
  dict_get d "timestamp" <> PNone ->
  let alerts :=
    filter is_high_temp_alert
      (logs (process_message env json_loads message window_size w)) in
  let alert := (WARNING, HighTempAlert (dict_get d "timestamp") (PNum t)) in
  (300 < t -> alerts = [alert]) /\
  (t <= 300 -> alerts = []) /\
  (alerts <> [] <-> 300 < t) /\
  (t == 300 -> alerts = []) /\
  (t == 300.01 -> alerts = [alert]).
Proof.
  intros Hloads Htemp Htime alerts alert.
  assert (Hnum : as_number (dict_get d "temperature") = Some t)
    by (rewrite Htemp; reflexivity).
  pose proof (reading_alerts env json_loads message window_size w d t
                Hloads Hnum Htime) as H.
  fold alerts in H. rewrite Htemp in H. fold alert in H.
  assert (Hhigh : 300 < t -> alerts = [alert]).
  { intros Hlt. rewrite H. unfold Qltb.
    destruct (Qle_bool t 300) eqn:Hle; [| reflexivity].
    apply Qle_bool_iff in Hle. lra. }
  assert (Hlow : t <= 300 -> alerts = []).
  { intros Hle. rewrite H. unfold Qltb.
    apply Qle_bool_iff in Hle. rewrite Hle. reflexivity. }
  repeat split.
  - exact Hhigh.
  - exact Hlow.
  - intros Hne. destruct (Qlt_le_dec 300 t) as [Hlt | Hle]; [exact Hlt |].
    exfalso. exact (Hne (Hlow Hle)).
  - intros Hlt E. rewrite (Hhigh Hlt) in E. discriminate E.
  - intros E. apply Hlow. lra.
  - intros E. apply Hhigh. lra.
Qed.

Lemma high_temperature_rule_strict_witness :
  filter is_high_temp_alert
    (logs (process_message default_env sample_loads ceiling_message 5 empty_window)) = [] /\
  filter is_high_temp_alert
    (logs (process_message default_env sample_loads above_message 5 empty_window)) =
  [(WARNING, HighTempAlert (PStr "2025-01-11T18:18:00Z") (PNum 300.01))].
Proof.
  split.
  - refine (proj1 (proj2 (proj2 (proj2
      (high_temperature_rule_strict default_env sample_loads ceiling_message 5
         empty_window _ 300 eq_refl eq_refl _)))) _).
    + discriminate.
    + reflexivity.
  - refine (proj2 (proj2 (proj2 (proj2
      (high_temperature_rule_strict default_env sample_loads above_message 5
         empty_window _ 300.01 eq_refl eq_refl _)))) _).
    + discriminate.
    + reflexivity.
Defined.

(** C9: every reading that passes the guard with a temperature above 300
    gets exactly one high-temperature alert, carrying the reading's
    timestamp.  This holds for every window (whatever its contents and its
    bound) and every configuration, hence whether the window is full or not
    and whether stall detection answers [True], [False] or fails: the rule is
    evaluated on the raw value right after the append. *)
Theorem high_reading_alerts_once
    (env : environ) (json_loads : string -> option pyval) (message : string)
    (window_size : Z) (w : deque) (d : list (string * pyval)) (t : Q) :
  json_loads message = Some (PDict d) ->
  as_number (dict_get d "temperature") = Some t ->
  dict_get d "timestamp" <> PNone ->
  300 < t ->
  let o := process_message env json_loads message window_size w in
  filter is_high_temp_alert (logs o) =
    [(WARNING, HighTempAlert (dict_get d "timestamp") (dict_get d "temperature"))] /\
  st o = deque_append (dict_get d "temperature") w /\
  res o = inr tt.
Proof.
  intros Hloads Hnum Htime Hlt o. unfold o. split; [| split].
  - rewrite (reading_alerts env json_loads message window_size w d t Hloads Hnum Htime).
    unfold Qltb. destruct (Qle_bool t 300) eqn:Hle; [| reflexivity].
    apply Qle_bool_iff in Hle. lra.
  - apply process_message_appends with (d := d); [exact Hloads |].
    exact (reading_not_rejected d t Hnum Htime).
  - apply process_message_returns.
Qed.

Lemma high_reading_alerts_once_witness :
  filter is_high_temp_alert
    (logs (process_message default_env sample_loads high_message 5 empty_window)) =
  [(WARNING, HighTempAlert (PStr "2025-01-11T18:16:00Z") (PNum 310))].
Proof.
  refine (proj1 (high_reading_alerts_once default_env sample_loads high_message 5
                   empty_window _ 310 eq_refl eq_refl _ _)).
  - discriminate.
  - reflexivity.
Defined.

(** ** Rejected payloads *)

(** C10: an object whose temperature or timestamp is present but bound to
    JSON null is handled exactly like one where that field is missing.  In
    both cases [process_message] returns at the guard: nothing is appended to
    the window, neither rule is evaluated, and the log holds the raw message,
    the decoded data and one invalid-message error. *)
Theorem null_field_treated_as_missing
    (env : environ) (json_loads : string -> option pyval) (window_size : Z)
    (w : deque) :
  forall (message : string) (d : list (string * pyval)) (key : string),
    json_loads message = Some (PDict d) ->
    key = "temperature"%string \/ key = "timestamp"%string ->
    assoc key d = Some PNone \/ assoc key d = None ->
    process_message env json_loads message window_size w =
    {| res := inr tt; st := w;
       logs := [(DEBUG, RawMessage message); (INFO, ProcessedMessage (PDict d));
                (ERROR, InvalidMessage message)] |}.
Proof.
  intros message d key Hloads Hkey Hnull.
  apply process_message_invalid; [exact Hloads |].
  assert (Hget : dict_get d key = PNone)
    by (unfold dict_get; destruct Hnull as [-> | ->]; reflexivity).
  destruct Hkey as [-> | ->]; rewrite Hget.
  - reflexivity.
  - apply orb_true_r.
Qed.

Lemma null_field_treated_as_missing_witness :
  process_message default_env sample_loads null_message 5 empty_window =
  {| res := inr tt; st := empty_window;
     logs := [(DEBUG, RawMessage null_message);
              (INFO, ProcessedMessage (reading "2025-01-11T18:19:00Z" PNone));
              (ERROR, InvalidMessage null_message)] |} /\
  process_message default_env sample_loads missing_message 5 empty_window =
  {| res := inr tt; st := empty_window;
     logs := [(DEBUG, RawMessage missing_message);
              (INFO, ProcessedMessage
                       (PDict [("timestamp"%string, PStr "2025-01-11T18:20:00Z")]));
              (ERROR, InvalidMessage missing_message)] |}.
Proof.
  split.
  - apply (null_field_treated_as_missing default_env sample_loads 5 empty_window
             null_message _ "temperature" eq_refl).
    + left. reflexivity.
    + left. reflexivity.
  - apply (null_field_treated_as_missing default_env sample_loads 5 empty_window
             missing_message _ "temperature" eq_refl).
    + left. reflexivity.
    + right. reflexivity.
Defined.

(** ** The run loop *)

Lemma consume_deliver (env : environ) (json_loads : string -> option pyval)
    (window_size : Z) (message : string) (offset : Z)
    (rest : list consumer_event) (w : deque) :
  let o := process_message env json_loads message window_size w in
  consume env json_loads window_size (Deliver message offset :: rest) w =
  with_prefix ((DEBUG, ReceivedMessage offset message) :: logs o)
    (consume env json_loads window_size rest (st o)).
Proof.
  intros o. cbn [consume]. unfold with_prefix, bind, tell. cbn [res st logs app].
  pose proof (process_message_returns env json_loads message window_size w) as Hret.
  fold o in Hret |- *. rewrite Hret. reflexivity.
Qed.

(** Events after a failure of the consumer are never looked at. *)
Lemma consume_until_failure (env : environ) (json_loads : string -> option pyval)
    (window_size : Z) (e : exn) (post : list consumer_event) :
  forall (pre : list consumer_event) (w : deque),
    forallb is_delivery pre = true ->
    let o := consume env json_loads window_size pre w in
    res o = inr tt /\
    consume env json_loads window_size (pre ++ Fails e :: post) w =
    {| res := inl e; st := st o; logs := logs o |}.
Proof.
  induction pre as [| ev pre IH]; intros w Hpre.
  - split; reflexivity.
  - destruct ev as [message offset | e']; [| discriminate Hpre].
    cbn [forallb is_delivery andb] in Hpre.
    cbv zeta. rewrite <- app_comm_cons, !consume_deliver. cbv zeta.
    destruct (IH (st (process_message env json_loads message window_size w)) Hpre)
      as [Hres Heq].
    unfold with_prefix. rewrite Heq. split; [exact Hres | reflexivity].
Qed.

Lemma deque_append_keeps_bound (n : nat) (x : pyval) (w : deque) :
  bounded n w -> bounded n (deque_append x w).
Proof.
  destruct w as [its m]. intros [Hm Hlen]. cbn in Hm, Hlen. subst m.
  rewrite deque_append_bounded by exact Hlen.
  split; [reflexivity | apply length_lastn].
Qed.

Lemma process_message_keeps_bound (env : environ) (json_loads : string -> option pyval)
    (message : string) (window_size : Z) (n : nat) (w : deque) :
  bounded n w ->
  bounded n (st (process_message env json_loads message window_size w)).
Proof.
  intros Hb.
  destruct (json_loads message) as [data |] eqn:Hloads.
  - destruct data as [| b | q | s | l | d].
    1-5: erewrite process_message_not_dict; [exact Hb | exact Hloads | discriminate].
    destruct (is_None (dict_get d "temperature") || is_None (dict_get d "timestamp"))
      eqn:Hok.
    + erewrite process_message_invalid; [exact Hb | exact Hloads | exact Hok].
    + rewrite (process_message_appends env json_loads message window_size w d Hloads Hok).
      apply deque_append_keeps_bound. exact Hb.
  - rewrite process_message_decode_error by exact Hloads. exact Hb.
Qed.

Lemma consume_keeps_bound (env : environ) (json_loads : string -> option pyval)
    (window_size : Z) (n : nat) (events : list consumer_event) :
  forall w : deque,
    bounded n w -> bounded n (st (consume env json_loads window_size events w)).
Proof.
  induction events as [| ev events IH]; intros w Hb.
  - exact Hb.
  - destruct ev as [message offset | e].
    + rewrite consume_deliver. cbv zeta. unfold with_prefix. cbn [st].
      apply IH. apply process_message_keeps_bound. exact Hb.
    + exact Hb.
Qed.

(** C1, as amended: a payload that is not JSON, is not a JSON object, or
    lacks a non-null temperature or timestamp leaves the rolling window
    unchanged and produces exactly one error entry and no alert;
    [process_message] returns normally and the run loop goes on with the
    next event on the same window. *)
Theorem rejected_event_skipped
    (env : environ) (json_loads : string -> option pyval) (message : string)
    (window_size : Z) (w : deque) :
  rejected json_loads message ->
  let o := process_message env json_loads message window_size w in
  st o = w /\
  res o = inr tt /\
  (exists entry, filter is_error (logs o) = [entry]) /\
  filter is_high_temp_alert (logs o) = [] /\
  filter is_stall_alert (logs o) = [] /\
  (forall (offset : Z) (rest : list consumer_event),
      consume env json_loads window_size (Deliver message offset :: rest) w =
      with_prefix ((DEBUG, ReceivedMessage offset message) :: logs o)
        (consume env json_loads window_size rest w)).
Proof.
  intros Hrej o.
  assert (Hshape :
    o = {| res := inr tt; st := w;
           logs := [(DEBUG, RawMessage message); (ERROR, JSONDecodeFailure)] |} \/
    o = {| res := inr tt; st := w;
           logs := [(DEBUG, RawMessage message);
                    (ERROR, UnexpectedError AttributeError)] |} \/
    exists d,
      o = {| res := inr tt; st := w;
             logs := [(DEBUG, RawMessage message); (INFO, ProcessedMessage (PDict d));
                      (ERROR, InvalidMessage message)] |}).
  { destruct Hrej as [Hnone | [[data [Hloads Hnd]] | [d [Hloads Hnull]]]].
    - left. apply process_message_decode_error. exact Hnone.
    - right. left. apply process_message_not_dict with (data := data); assumption.
    - right. right. exists d. apply process_message_invalid; [exact Hloads |].
      destruct Hnull as [-> | ->]; [reflexivity | apply orb_true_r]. }
  assert (Hst : st o = w)
    by (destruct Hshape as [-> | [-> | [d ->]]]; reflexivity).
  repeat split.
  - exact Hst.
  - destruct Hshape as [-> | [-> | [d ->]]]; reflexivity.
  - destruct Hshape as [-> | [-> | [d ->]]]; eexists; reflexivity.
  - destruct Hshape as [-> | [-> | [d ->]]]; reflexivity.
  - destruct Hshape as [-> | [-> | [d ->]]]; reflexivity.
  - intros offset rest. rewrite consume_deliver. cbv zeta. fold o.
    rewrite Hst. reflexivity.
Qed.

Lemma rejected_event_skipped_witness :
  rejected sample_loads "not json" /\
  st (process_message default_env sample_loads "not json" 5 empty_window) = empty_window.
Proof.
  assert (H : rejected sample_loads "not json") by (left; reflexivity).
  split; [exact H |].
  exact (proj1 (rejected_event_skipped default_env sample_loads "not json" 5
                  empty_window H)).
Defined.

(** A payload with a timestamp and a temperature that is not a number is
    malformed, yet its temperature is appended to the window before the
    comparison with 300 fails. *)
Lemma malformed_event_counterexample :
  malformed sample_loads hot_message /\
  process_message default_env sample_loads hot_message 5 empty_window =
  {| res := inr tt;
     st := {| items := [PStr "hot"]; maxlen := Some 5%nat |};
     logs := [(DEBUG, RawMessage hot_message);
              (INFO, ProcessedMessage (reading "2025-01-11T18:15:00Z" (PStr "hot")));
              (ERROR, UnexpectedError TypeError)] |} /\
  st (process_message default_env sample_loads hot_message 5 empty_window)
  <> empty_window.
Proof.
  split; [| split].
  - intros data Hloads [d [timestamp [t [Hd [_ Htemp]]]]].
    subst data. vm_compute in Hloads. inversion Hloads as [Hdict]. subst d.
    vm_compute in Htemp. discriminate Htemp.
  - vm_compute. reflexivity.
  - vm_compute. discriminate.
Qed.

(** ** The rolling window *)

Lemma push_all_snoc (xs : list pyval) (x : pyval) (w : deque) :
  push_all (xs ++ [x]) w = deque_append x (push_all xs w).
Proof. unfold push_all. rewrite fold_left_app. reflexivity. Qed.

(** C4: the window created by [deque(maxlen=window_size)] never holds more
    than [window_size] items, whatever is appended to it, also when the
    appends are those of the run loop; an append to a full window drops the
    oldest item and keeps the others in order (first in, first out), and an
    append to a window that is not full drops nothing. *)
Theorem rolling_window_capacity (window_size : Z) (w0 : deque) :
  deque_new window_size = inr w0 ->
  (forall xs : list pyval,
      (length (items (push_all xs w0)) <= Z.to_nat window_size)%nat) /\
  (forall (xs : list pyval) (x oldest : pyval) (others : list pyval),
      items (push_all xs w0) = oldest :: others ->
      length (oldest :: others) = Z.to_nat window_size ->
      items (push_all (xs ++ [x]) w0) = others ++ [x]) /\
  (forall (xs : list pyval) (x : pyval),
      (length (items (push_all xs w0)) < Z.to_nat window_size)%nat ->
      items (push_all (xs ++ [x]) w0) = items (push_all xs w0) ++ [x]) /\
  (forall (env : environ) (json_loads : string -> option pyval)
          (events : list consumer_event),
      (length (items (st (consume env json_loads window_size events w0)))
       <= Z.to_nat window_size)%nat).
Proof.
  intros Hnew. apply deque_new_fresh in Hnew. destruct Hnew as [Hnn ->].
  set (n := Z.to_nat window_size).
  assert (Hpush : forall xs,
             push_all xs {| items := []; maxlen := Some n |} =
             {| items := lastn n xs; maxlen := Some n |}).
  { intros xs. rewrite push_all_bounded by (simpl; lia). reflexivity. }
  repeat split.
  - intros xs. rewrite Hpush. apply length_lastn.
  - intros xs x oldest others Hits Hlen.
    rewrite push_all_snoc, Hpush. rewrite Hpush in Hits. cbn [items] in Hits.
    rewrite deque_append_bounded by apply length_lastn. cbn [items].
    rewrite Hits. unfold lastn.
    replace (length ((oldest :: others) ++ [x]) - n)%nat with 1%nat
      by (rewrite length_app; simpl length in *; subst n; lia).
    reflexivity.
  - intros xs x Hlt.
    rewrite push_all_snoc, Hpush. rewrite Hpush in Hlt. cbn [items] in Hlt |- *.
    rewrite deque_append_bounded by apply length_lastn. cbn [items].
    apply lastn_short. rewrite length_app. simpl. lia.
  - intros env json_loads events.
    apply (consume_keeps_bound env json_loads window_size n events).
    split; [reflexivity | simpl; lia].
Qed.

Lemma rolling_window_capacity_witness :
  deque_new 5 = inr empty_window /\
  (length (items (push_all (map PNum [1; 2; 3; 4; 5; 6; 7]%Q) empty_window)) <= 5)%nat.
Proof.
  split; [reflexivity |].
  exact (proj1 (rolling_window_capacity 5 empty_window eq_refl)
           (map PNum [1; 2; 3; 4; 5; 6; 7])).
Defined.

(** C8: the window depends on the last [window_size] appends only.
    Appending, to a fresh window, a sequence of at least [window_size] values
    gives the same window as appending any longer history that ends with
    that sequence; so two histories that end with the same [window_size]
    values in the same order give identical windows. *)
Theorem window_depends_on_last_pushes (window_size : Z) (w0 : deque) :
  deque_new window_size = inr w0 ->
  (forall history suffix : list pyval,
      (Z.to_nat window_size <= length suffix)%nat ->
      push_all (history ++ suffix) w0 = push_all suffix w0) /\
  (forall history1 history2 suffix : list pyval,
      length suffix = Z.to_nat window_size ->
      push_all (history1 ++ suffix) w0 = push_all (history2 ++ suffix) w0 /\
      items (push_all (history1 ++ suffix) w0) = suffix).
Proof.
  intros Hnew. apply deque_new_fresh in Hnew. destruct Hnew as [Hnn ->].
  set (n := Z.to_nat window_size).
  assert (Hpush : forall xs,
             push_all xs {| items := []; maxlen := Some n |} =
             {| items := lastn n xs; maxlen := Some n |}).
  { intros xs. rewrite push_all_bounded by (simpl; lia). reflexivity. }
  assert (Hlast : forall history suffix,
             (n <= length suffix)%nat ->
             push_all (history ++ suffix) {| items := []; maxlen := Some n |} =
             push_all suffix {| items := []; maxlen := Some n |}).
  { intros history suffix Hlen. rewrite !Hpush. f_equal.
    apply lastn_app_long. exact Hlen. }
  split; [exact Hlast |].
  intros history1 history2 suffix Hlen. split.
  - rewrite (Hlast history1), (Hlast history2) by lia. reflexivity.
  - rewrite Hlast by lia. rewrite Hpush. cbn [items].
    apply lastn_short. lia.
Qed.

Lemma window_depends_on_last_pushes_witness :
  deque_new 2 = inr {| items := []; maxlen := Some 2%nat |} /\
  push_all (map PNum [9; 8; 7] ++ map PNum [1; 2]) {| items := []; maxlen := Some 2%nat |} =
  push_all (map PNum [1; 2]) {| items := []; maxlen := Some 2%nat |}.
Proof.
  split; [reflexivity |].
  apply (proj1 (window_depends_on_last_pushes 2 _ eq_refl)).
  simpl. lia.
Defined.

(** ** Failures inside and outside [process_message] *)

Lemma process_body_error (env : environ) (json_loads : string -> option pyval)
    (message : string) (window_size : Z) (w : deque) (e : exn) :
  res (process_body env json_loads message window_size w) = inl e ->
  e = JSONDecodeError \/ e = AttributeError \/ e = TypeError \/ e = ValueError.
Proof.
  unfold process_body. step_monad.
  destruct (json_loads message) as [data |]; cbn [res st logs app].
  - destruct data as [| b | q | s | l | d]; cbn [py_get res st logs app];
      try (intros H; inversion H; right; left; reflexivity).
    destruct (is_None (dict_get d "temperature") || is_None (dict_get d "timestamp"));
      cbn [res st logs app]; [discriminate |].
    intros H. apply evaluate_rules_error in H. destruct H as [-> | ->]; auto.
  - intros H. inversion H. left. reflexivity.
Qed.

(** C6, as amended: a failure raised while an event is processed is caught
    inside [process_message], which logs it as an error and returns
    normally, so that the run loop goes on with the next event on the window
    as the failed event left it.  Only a failure raised by the consumer
    itself while the next event is pulled is fatal to the loop: it is logged
    as an error, the consumer is closed, and the events that follow are never
    processed. *)
Theorem failure_handling (env : environ) (json_loads : string -> option pyval) :
  (forall (message : string) (window_size : Z) (w : deque) (e : exn),
      res (process_body env json_loads message window_size w) = inl e ->
      e <> JSONDecodeError ->
      let body := process_body env json_loads message window_size w in
      let o := process_message env json_loads message window_size w in
      o = {| res := inr tt; st := st body;
             logs := logs body ++ [(ERROR, UnexpectedError e)] |} /\
      (forall (offset : Z) (rest : list consumer_event),
          consume env json_loads window_size (Deliver message offset :: rest) w =
          with_prefix ((DEBUG, ReceivedMessage offset message) :: logs o)
            (consume env json_loads window_size rest (st body)))) /\
  (forall (topic : string) (window_size : Z) (pre post : list consumer_event)
          (e : exn) (s : session),
      forallb is_delivery pre = true ->
      is_Exception e = true ->
      let before := consume env json_loads window_size pre (rolling_window s) in
      main_loop env json_loads topic window_size (pre ++ Fails e :: post) s =
      {| res := inr tt;
         st := {| rolling_window := st before; close_calls := S (close_calls s) |};
         logs := logs before ++ [(ERROR, ConsumerError e); (INFO, ConsumerClosed topic)] |}).
Proof.
  split.
  - intros message window_size w e Hres Hne body o.
    assert (Ho : o = {| res := inr tt; st := st body;
                        logs := logs body ++ [(ERROR, UnexpectedError e)] |}).
    { unfold o, process_message, try_except. fold body. unfold body at 1.
      rewrite Hres.
      destruct (process_body_error _ _ _ _ _ _ Hres) as [-> | [-> | [-> | ->]]];
        [contradiction | reflexivity | reflexivity | reflexivity]. }
    split; [exact Ho |].
    intros offset rest. rewrite consume_deliver. cbv zeta. fold o.
    rewrite Ho. reflexivity.
  - intros topic window_size pre post e s Hpre Hexc before.
    destruct (consume_until_failure env json_loads window_size e post pre
                (rolling_window s) Hpre) as [_ Heq].
    unfold main_loop, try_finally, try_except, zoom.
    rewrite Heq. fold before. cbn [res st logs].
    destruct e; try discriminate Hexc; cbn [main_handler is_Exception];
      unfold consumer_close, bind, modify, tell; cbn [res st logs app rolling_window close_calls];
      rewrite <- app_assoc; reflexivity.
Qed.

Lemma failure_handling_witness :
  res (process_body default_env sample_loads hot_message 5 empty_window) = inl TypeError /\
  process_message default_env sample_loads hot_message 5 empty_window =
  {| res := inr tt;
     st := st (process_body default_env sample_loads hot_message 5 empty_window);
     logs := logs (process_body default_env sample_loads hot_message 5 empty_window)
             ++ [(ERROR, UnexpectedError TypeError)] |}.
Proof.
  assert (H : res (process_body default_env sample_loads hot_message 5 empty_window)
              = inl TypeError) by (vm_compute; reflexivity).
  split; [exact H |].
  refine (proj1 (proj1 (failure_handling default_env sample_loads)
                   hot_message 5%Z empty_window TypeError H _)).
  discriminate.
Defined.

(** The comparison of a text temperature with 300 raises [TypeError] inside
    [process_message]; the loop does not stop: the next event is processed
    (its high-temperature alert is logged) and no consumer error is logged. *)
Lemma failure_not_fatal_counterexample :
  res (process_body default_env sample_loads hot_message 5 empty_window) = inl TypeError /\
  main default_env sample_loads
    (fun _ _ => inr [Deliver hot_message 0; Deliver high_message 1]) =
  {| res := inr tt;
     st := Some {| rolling_window :=
                     {| items := [PStr "hot"; PNum 310]; maxlen := Some 5%nat |};
                   close_calls := 1 |};
     logs :=
       [(INFO, StartConsumer);
        (INFO, KafkaTopic "unknown_topic");
        (INFO, ConsumerGroupId "mk_default_group");
        (INFO, RollingWindowSize 5);
        (INFO, Listening "unknown_topic" "mk_default_group");
        (DEBUG, ReceivedMessage 0 hot_message);
        (DEBUG, RawMessage hot_message);
        (INFO, ProcessedMessage (reading "2025-01-11T18:15:00Z" (PStr "hot")));
        (ERROR, UnexpectedError TypeError);
        (DEBUG, ReceivedMessage 1 high_message);
        (DEBUG, RawMessage high_message);
        (INFO, ProcessedMessage (reading "2025-01-11T18:16:00Z" (PNum 310)));
        (WARNING, HighTempAlert (PStr "2025-01-11T18:16:00Z") (PNum 310));
        (INFO, RollingWindowSize 5);
        (DEBUG, WindowNotFull 2 5);
        (INFO, ConsumerClosed "unknown_topic")] |}.
Proof.
  split; vm_compute; reflexivity.
Qed.

(** * Further properties of the consumer *)

(** ** One message *)

Lemma process_message_window (env : environ) (json_loads : string -> option pyval)
    (message : string) (window_size : Z) (w : deque) :
  st (process_message env json_loads message window_size w) =
  match accepted json_loads message with
  | Some v => deque_append v w
  | None => w
  end.
Proof.
  unfold accepted.
  destruct (json_loads message) as [data |] eqn:Hloads.
  - destruct data as [| b | q | s | l | d].
    1-5: erewrite process_message_not_dict; [reflexivity | exact Hloads | discriminate].
    destruct (is_None (dict_get d "temperature") || is_None (dict_get d "timestamp"))
      eqn:Hok.
    + erewrite process_message_invalid; [reflexivity | exact Hloads | exact Hok].
    + apply process_message_appends with (d := d); assumption.
  - rewrite process_message_decode_error by exact Hloads. reflexivity.
Qed.

(** The error entries and the stall alerts of a reading that passes the
    guard, read off the outcome of [detect_stall] on the window that already
    holds the reading. *)
Lemma reading_errors_and_stalls (env : environ) (json_loads : string -> option pyval)
    (message : string) (window_size : Z) (w : deque) (d : list (string * pyval)) :
  json_loads message = Some (PDict d) ->
  is_None (dict_get d "temperature") || is_None (dict_get d "timestamp") = false ->
  let temperature := dict_get d "temperature" in
  let timestamp := dict_get d "timestamp" in
  let w' := deque_append temperature w in
  let o := process_message env json_loads message window_size w in
  match py_richcmp OpGt temperature (PNum 300) with
  | inl e =>
      filter is_error (logs o) = [(ERROR, UnexpectedError e)] /\
      filter is_stall_alert (logs o) = []
  | inr _ =>
      match res (detect_stall env w' w') with
      | inl e =>
          filter is_error (logs o) = [(ERROR, UnexpectedError e)] /\
          filter is_stall_alert (logs o) = []
      | inr stalled =>
          filter is_error (logs o) = [] /\
          filter is_stall_alert (logs o) =
          if stalled
          then [(INFO, StallDetected timestamp temperature window_size)]
          else []
      end
  end.
Proof.
  intros Hloads Hok temperature timestamp w' o. unfold o.
  rewrite (process_message_reading env json_loads message window_size w d Hloads Hok).
  rewrite rules_handled. cbv zeta.
  rewrite evaluate_rules_outcome. unfold rules_outcome, with_prefix.
  fold temperature timestamp w'.
  destruct (py_richcmp OpGt temperature (PNum 300)) as [e | high].
  - cbn [res st logs app]. split; reflexivity.
  - cbv zeta.
    pose proof (detect_stall_no_alert env w' deque w') as [_ Hquiet].
    assert (Hnostall : filter is_stall_alert (logs (detect_stall env w' w')) = []).
    { rewrite detect_stall_outcome. unfold stall_outcome.
      repeat match goal with
             | |- context [match ?c with _ => _ end] => destruct c
             end; reflexivity. }
    set (ds := detect_stall env w' w') in *.
    destruct (res ds) as [e | stalled]; destruct high; try destruct stalled;
      cbn [res st logs app filter is_error is_stall_alert fst snd];
      rewrite ?filter_app, ?Hquiet, ?Hnostall; split; reflexivity.
Qed.

(** X1: [process_message] never lets an exception out and logs at most one
    error per message, whatever the message, the window and the
    environment. *)
Theorem process_message_contains_failures
    (env : environ) (json_loads : string -> option pyval) (message : string)
    (window_size : Z) (w : deque) :
  let o := process_message env json_loads message window_size w in
  res o = inr tt /\ (length (filter is_error (logs o)) <= 1)%nat.
Proof.
  intros o. split; [apply process_message_returns |]. unfold o.
  destruct (json_loads message) as [data |] eqn:Hloads.
  - destruct data as [| b | q | s | l | d].
    1-5: erewrite process_message_not_dict;
      [cbn; lia | exact Hloads | discriminate].
    destruct (is_None (dict_get d "temperature") || is_None (dict_get d "timestamp"))
      eqn:Hok.
    + erewrite process_message_invalid; [cbn; lia | exact Hloads | exact Hok].
    + pose proof (reading_errors_and_stalls env json_loads message window_size w d
                    Hloads Hok) as H.
      cbv zeta in H.
      destruct (py_richcmp OpGt _ _) as [e | high].
      * destruct H as [-> _]. cbn. lia.
      * destruct (res (detect_stall env _ _)) as [e | stalled];
          destruct H as [-> _]; cbn; lia.
  - rewrite process_message_decode_error by exact Hloads. cbn. lia.
Qed.

(** X2: a reading that passes the guard with a numeric temperature is
    reported as a stall exactly when [detect_stall] answers [True] on the
    window that already holds that reading; the report carries the reading's
    timestamp and temperature and the [window_size] argument.  When
    [detect_stall] raises instead, the failure is the only error logged and
    no stall is reported. *)
Theorem stall_report_follows_detect_stall
    (env : environ) (json_loads : string -> option pyval) (message : string)
    (window_size : Z) (w : deque) (d : list (string * pyval)) (t : Q) :
  json_loads message = Some (PDict d) ->
  as_number (dict_get d "temperature") = Some t ->
  dict_get d "timestamp" <> PNone ->
  let temperature := dict_get d "temperature" in
  let timestamp := dict_get d "timestamp" in
  let w' := deque_append temperature w in
  let o := process_message env json_loads message window_size w in
  (forall stalled : bool,
      res (detect_stall env w' w') = inr stalled ->
      filter is_error (logs o) = [] /\
      filter is_stall_alert (logs o) =
      if stalled then [(INFO, StallDetected timestamp temperature window_size)] else []) /\
  (forall e : exn,
      res (detect_stall env w' w') = inl e ->
      filter is_error (logs o) = [(ERROR, UnexpectedError e)] /\
      filter is_stall_alert (logs o) = []).
Proof.
  intros Hloads Hnum Htime temperature timestamp w' o.
  pose proof (reading_errors_and_stalls env json_loads message window_size w d
                Hloads (reading_not_rejected d t Hnum Htime)) as H.
  cbv zeta in H. fold temperature timestamp w' o in H.
  unfold temperature in H at 1.
  rewrite (py_richcmp_numeric OpGt _ (PNum 300) t 300 Hnum eq_refl) in H.
  split.
  - intros stalled Hres. rewrite Hres in H. exact H.
  - intros e Hres. rewrite Hres in H. exact H.
Qed.

Lemma stall_report_follows_detect_stall_witness :
  filter is_stall_alert
    (logs (process_message single_reading_env sample_loads high_message 1
             {| items := []; maxlen := Some 1%nat |})) =
  [(INFO, StallDetected (PStr "2025-01-11T18:16:00Z") (PNum 310) 1)].
Proof.
  refine (proj2 (proj1 (stall_report_follows_detect_stall single_reading_env
                          sample_loads high_message 1
                          {| items := []; maxlen := Some 1%nat |} _ 310
                          eq_refl eq_refl _) true _)).
  - discriminate.
  - reflexivity.
Defined.

(** ** A run of the loop *)

Lemma consume_window (env : environ) (json_loads : string -> option pyval)
    (window_size : Z) (events : list consumer_event) :
  forall w : deque,
    st (consume env json_loads window_size events w) =
    push_all (accepted_values json_loads (delivered events)) w.
Proof.
  induction events as [| ev events IH]; intros w.
  - reflexivity.
  - destruct ev as [message offset | e]; [| reflexivity].
    rewrite consume_deliver. cbv zeta. unfold with_prefix. cbn [st].
    rewrite IH, process_message_window.
    cbn [delivered]. unfold accepted_values. cbn [flat_map].
    unfold push_all. rewrite fold_left_app.
    destruct (accepted json_loads message); reflexivity.
Qed.

(** X3: after a run of the loop the window holds exactly the values that
    passed the guard, in arrival order, cut to the last [window_size] of
    them: the events pulled before the consumer failed or ran out
    contribute their temperature when they pass the guard and nothing
    otherwise. *)
Theorem window_holds_last_accepted
    (env : environ) (json_loads : string -> option pyval)
    (window_size : Z) (events : list consumer_event) (n : Z) (w0 : deque) :
  deque_new n = inr w0 ->
  items (st (consume env json_loads window_size events w0)) =
  lastn (Z.to_nat n) (accepted_values json_loads (delivered events)).
Proof.
  intros Hnew. apply deque_new_fresh in Hnew. destruct Hnew as [_ ->].
  rewrite consume_window, push_all_bounded by (simpl; lia). reflexivity.
Qed.

Lemma window_holds_last_accepted_witness :
  items (st (consume default_env sample_loads 5
               [Deliver high_message 0; Deliver null_message 1;
                Deliver "not json" 2; Deliver above_message 3;
                Fails (KafkaError "down"); Deliver ceiling_message 4]
               empty_window)) =
  [PNum 310; PNum 300.01].
Proof.
  exact (window_holds_last_accepted default_env sample_loads 5
           [Deliver high_message 0; Deliver null_message 1;
            Deliver "not json" 2; Deliver above_message 3;
            Fails (KafkaError "down"); Deliver ceiling_message 4]
           5 empty_window eq_refl).
Defined.

(** X4: events are processed strictly in order, one at a time: running the
    loop over a batch of deliveries followed by more events is running it
    over the batch, then over the rest on the window the batch left, the
    logs being concatenated. *)
Theorem consume_in_order
    (env : environ) (json_loads : string -> option pyval) (window_size : Z)
    (batch rest : list consumer_event) (w : deque) :
  forallb is_delivery batch = true ->
  let first := consume env json_loads window_size batch w in
  res first = inr tt /\
  consume env json_loads window_size (batch ++ rest) w =
  with_prefix (logs first) (consume env json_loads window_size rest (st first)).
Proof.
  revert w. induction batch as [| ev batch IH]; intros w Hbatch.
  - cbv zeta. split; [reflexivity |].
    unfold with_prefix. cbn [app consume ret res st logs].
    destruct (consume env json_loads window_size rest w); reflexivity.
  - destruct ev as [message offset | e]; [| discriminate Hbatch].
    cbn [forallb is_delivery andb] in Hbatch.
    cbv zeta. rewrite <- app_comm_cons, !consume_deliver. cbv zeta.
    destruct (IH (st (process_message env json_loads message window_size w)) Hbatch)
      as [Hres Heq].
    unfold with_prefix in *. cbn [res st logs]. rewrite Heq. cbn [res st logs].
    split; [exact Hres |]. rewrite <- app_assoc. reflexivity.
Qed.

Lemma consume_in_order_witness :
  consume default_env sample_loads 5
    ([Deliver high_message 0] ++ [Deliver above_message 1]) empty_window =
  with_prefix
    (logs (consume default_env sample_loads 5 [Deliver high_message 0] empty_window))
    (consume default_env sample_loads 5 [Deliver above_message 1]
       (st (consume default_env sample_loads 5 [Deliver high_message 0] empty_window))).
Proof.
  exact (proj2 (consume_in_order default_env sample_loads 5
                  [Deliver high_message 0] [Deliver above_message 1]
                  empty_window eq_refl)).
Defined.

(** ** Values that are not numbers *)

Lemma py_richcmp_same_kind (op : cmpop) (a b : pyval) (c : bool) :
  py_richcmp op a b = inr c ->
  (as_number a = None <-> as_number b = None).
Proof.
  destruct a, b; intros H; cbn [as_number];
    try (split; congruence);
    cbn in H; try discriminate H;
    repeat match type of H with
           | context [match ?x with _ => _ end] => destruct x
           end; discriminate H.
Qed.

Lemma py_select_number (op : cmpop) (rest : list pyval) :
  forall cand v : pyval,
    py_select op cand rest = inr v ->
    as_number v <> None ->
    as_number cand <> None /\ Forall (fun x => as_number x <> None) rest.
Proof.
  induction rest as [| item rest IH]; intros cand v H Hv; cbn in H.
  - inversion H. subst. split; [exact Hv | constructor].
  - destruct (py_richcmp op item cand) as [e | b] eqn:Hc; [discriminate H |].
    pose proof (py_richcmp_same_kind op item cand b Hc) as Hkind.
    destruct b.
    + destruct (IH item v H Hv) as [Hitem Hrest].
      split; [| constructor; assumption].
      intros Hcand. apply Hitem. apply Hkind. exact Hcand.
    + destruct (IH cand v H Hv) as [Hcand Hrest].
      split; [exact Hcand |]. constructor; [| exact Hrest].
      intros Hitem. apply Hcand. apply Hkind. exact Hitem.
Qed.

(** X5: one value that is not a number makes stall detection fail for as
    long as it sits in a window that passes the length guard:
    [detect_stall] raises [TypeError], whatever the other values and the
    threshold are. *)
Theorem non_number_breaks_detect_stall
    (env : environ) (w : deque) (S : Type) (s : S) :
  Exists (fun v => as_number v = None) (items w) ->
  (MK_ROLLING_WINDOW_SIZE env <= Z.of_nat (length (items w)))%Z ->
  res (detect_stall env w s) = inl TypeError.
Proof.
  intros Hbad Hlen. rewrite detect_stall_outcome. unfold stall_outcome.
  destruct (Z.ltb_spec (Z.of_nat (length (items w))) (MK_ROLLING_WINDOW_SIZE env))
    as [Hlt | _]; [lia |].
  destruct (items w) as [| x rest] eqn:Hits.
  { inversion Hbad. }
  cbn [py_max py_min].
  destruct (py_select OpGt x rest) as [e | hi] eqn:Hmax.
  { cbn. f_equal. exact (py_select_error _ _ _ _ Hmax). }
  destruct (py_select OpLt x rest) as [e | lo] eqn:Hmin.
  { cbn. f_equal. exact (py_select_error _ _ _ _ Hmin). }
  unfold py_sub. destruct (as_number hi) as [qh |] eqn:Hhi; [| reflexivity].
  exfalso.
  assert (Hnum : as_number hi <> None) by congruence.
  destruct (py_select_number OpGt rest x hi Hmax Hnum) as [Hx Hrest].
  apply Exists_exists in Hbad. destruct Hbad as [v [Hin Hv]].
  destruct Hin as [<- | Hin]; [exact (Hx Hv) |].
  rewrite Forall_forall in Hrest. exact (Hrest v Hin Hv).
Qed.

Lemma non_number_breaks_detect_stall_witness :
  res (detect_stall single_reading_env
         {| items := [PNum 200; PStr "hot"; PNum 200]; maxlen := None |} tt)
  = inl TypeError.
Proof.
  apply (non_number_breaks_detect_stall single_reading_env _ unit tt).
  - right. left. reflexivity.
  - vm_compute. discriminate.
Defined.

(** X6: stall detection recovers by itself.  On the window created by
    [main], once the last [window_size] accepted readings are finite numbers
    whose range the interpreter computes without loss ([exact_range]), the
    verdict on the window is the inclusive range test on those readings,
    whatever was accepted before them (text, lists, anything). *)
Theorem detection_recovers
    (env : environ) (json_loads : string -> option pyval) (window_size : Z)
    (events : list consumer_event) (w0 : deque)
    (earlier : list pyval) (temps : list Q) (k : nat) (S : Type) (s : S) :
  (0 < MK_ROLLING_WINDOW_SIZE env)%Z ->
  deque_new (MK_ROLLING_WINDOW_SIZE env) = inr w0 ->
  accepted_values json_loads (delivered events) = earlier ++ map PNum temps ->
  Z.of_nat (length temps) = MK_ROLLING_WINDOW_SIZE env ->
  exact_range k temps = true ->
  let w := st (consume env json_loads window_size events w0) in
  items w = map PNum temps /\
  res (detect_stall env w s) =
  inr (Qle_bool (spec_range temps) (MK_STALL_THRESHOLD_F env)).
Proof.
  intros Hpos Hnew Hacc Hlen _ w.
  assert (Hits : items w = map PNum temps).
  { unfold w. apply deque_new_fresh in Hnew. destruct Hnew as [_ ->].
    rewrite consume_window, push_all_bounded by (simpl; lia).
    cbn [items app]. rewrite Hacc.
    rewrite lastn_app_long by (rewrite length_map; lia).
    apply lastn_short. rewrite length_map. lia. }
  split; [exact Hits |].
  apply detect_stall_numeric; [exact Hits | | lia].
  intros ->. simpl in Hlen. lia.
Qed.

Lemma detection_recovers_witness :
  res (detect_stall single_reading_env
         (st (consume single_reading_env sample_loads 1
                [Deliver hot_message 0; Deliver high_message 1]
                {| items := []; maxlen := Some 1%nat |})) tt) =
  inr (Qle_bool (spec_range [310]) (MK_STALL_THRESHOLD_F single_reading_env)).
Proof.
  refine (proj2 (detection_recovers single_reading_env sample_loads 1
                   [Deliver hot_message 0; Deliver high_message 1]
                   {| items := []; maxlen := Some 1%nat |}
                   [PStr "hot"] [310] 0%nat unit tt _ eq_refl eq_refl eq_refl
                   _)).
  - reflexivity.
  - vm_compute. reflexivity.
Defined.

(** ** Numeric readings on a numeric window *)

Lemma deque_append_numeric (w : deque) (qs : list Q) (t : Q) :
  numeric_window w qs ->
  numeric_window (deque_append (PNum t) w) (append_reading t (maxlen w) qs).
Proof.
  unfold numeric_window, deque_append, append_reading. intros Hits. rewrite Hits.
  assert (Hmap : map PNum qs ++ [PNum t] = map PNum (qs ++ [t]))
    by (rewrite map_app; reflexivity).
  rewrite Hmap, length_map.
  destruct (maxlen w) as [n |]; cbn [items]; [| reflexivity].
  destruct (n <? length (qs ++ [t]))%nat; [| reflexivity].
  destruct (qs ++ [t]); reflexivity.
Qed.

(** X7: on a window of finite numbers, with a positive configured window
    size, a reading with a finite numeric temperature and a timestamp logs
    no error when the range of the window, the new reading included, is one
    the interpreter computes without loss ([exact_range]); the window stays
    numeric; and a stall is reported exactly when that window has reached
    the configured size and its range is at most the threshold. *)
Theorem numeric_reading_on_numeric_window
    (env : environ) (json_loads : string -> option pyval) (message : string)
    (window_size : Z) (w : deque) (qs : list Q)
    (d : list (string * pyval)) (t : Q) (k : nat) :
  (0 < MK_ROLLING_WINDOW_SIZE env)%Z ->
  numeric_window w qs ->
  json_loads message = Some (PDict d) ->
  dict_get d "temperature" = PNum t ->
  dict_get d "timestamp" <> PNone ->
  exact_range k (append_reading t (maxlen w) qs) = true ->
  let o := process_message env json_loads message window_size w in
  let qs' := append_reading t (maxlen w) qs in
  numeric_window (st o) qs' /\
  filter is_error (logs o) = [] /\
  filter is_stall_alert (logs o) =
  if (Z.of_nat (length qs') <? MK_ROLLING_WINDOW_SIZE env)%Z then []
  else if Qle_bool (spec_range qs') (MK_STALL_THRESHOLD_F env)
       then [(INFO, StallDetected (dict_get d "timestamp") (PNum t) window_size)]
       else [].
Proof.
  intros Hpos Hw Hloads Htemp Htime _ o qs'.
  assert (Hnum : as_number (dict_get d "temperature") = Some t)
    by (rewrite Htemp; reflexivity).
  pose proof (reading_not_rejected d t Hnum Htime) as Hok.
  pose proof (process_message_appends env json_loads message window_size w d
                Hloads Hok) as Hst.
  fold o in Hst. rewrite Htemp in Hst.
  pose proof (deque_append_numeric w qs t Hw) as Hqs'. fold qs' in Hqs'.
  rewrite Hst. split; [exact Hqs' |].
  pose proof (reading_errors_and_stalls env json_loads message window_size w d
                Hloads Hok) as H.
  cbv zeta in H. fold o in H. rewrite Htemp in H.
  rewrite (py_richcmp_numeric OpGt (PNum t) (PNum 300) t 300 eq_refl eq_refl) in H.
  set (w' := deque_append (PNum t) w) in *.
  unfold numeric_window in Hqs'.
  destruct (Z.ltb_spec (Z.of_nat (length qs')) (MK_ROLLING_WINDOW_SIZE env))
    as [Hshort | Hfull].
  - assert (Hres : res (detect_stall env w' w') = inr false).
    { rewrite detect_stall_outcome. unfold stall_outcome.
      rewrite Hqs', length_map.
      apply Z.ltb_lt in Hshort. rewrite Hshort. reflexivity. }
    rewrite Hres in H. exact H.
  - assert (Hne : qs' <> []) by (intros E; rewrite E in Hfull; simpl in Hfull; lia).
    rewrite (detect_stall_numeric env w' qs' deque w' Hqs' Hne Hfull) in H.
    exact H.
Qed.

Lemma numeric_reading_on_numeric_window_witness :
  filter is_error
    (logs (process_message default_env sample_loads high_message 5
             {| items := map PNum [200; 200.125; 200.0625; 200.1875; 200.125];
                maxlen := Some 5%nat |})) = [].
Proof.
  refine (proj1 (proj2 (numeric_reading_on_numeric_window default_env sample_loads
                          high_message 5
                          {| items := map PNum [200; 200.125; 200.0625; 200.1875;
                                                200.125];
                             maxlen := Some 5%nat |}
                          [200; 200.125; 200.0625; 200.1875; 200.125] _ 310 4%nat
                          _ eq_refl eq_refl eq_refl _ _))).
  - reflexivity.
  - discriminate.
  - vm_compute. reflexivity.
Defined.

(** ** How [main] starts and ends *)

Lemma main_loop_outcome (env : environ) (json_loads : string -> option pyval)
    (topic : string) (window_size : Z) (events : list consumer_event) (s : session) :
  let c := consume env json_loads window_size events (rolling_window s) in
  let closed := {| rolling_window := st c; close_calls := S (close_calls s) |} in
  main_loop env json_loads topic window_size events s =
  match res c with
  | inr _ =>
      {| res := inr tt; st := closed;
         logs := logs c ++ [(INFO, ConsumerClosed topic)] |}
  | inl KeyboardInterrupt =>
      {| res := inr tt; st := closed;
         logs := logs c ++ [(WARNING, ConsumerInterrupted); (INFO, ConsumerClosed topic)] |}
  | inl e =>
      if is_Exception e
      then {| res := inr tt; st := closed;
              logs := logs c ++ [(ERROR, ConsumerError e); (INFO, ConsumerClosed topic)] |}
      else {| res := inl e; st := closed;
              logs := logs c ++ [(INFO, ConsumerClosed topic)] |}
  end.
Proof.
  intros c closed. unfold closed, c.
  unfold main_loop, try_finally, try_except, zoom.
  destruct (consume env json_loads window_size events (rolling_window s))
    as [[e | []] s' l]; cbn [res st logs].
  - destruct e; cbn [main_handler is_Exception];
      unfold consumer_close, bind, modify, tell;
      cbn [res st logs app rolling_window close_calls];
      rewrite <- ?app_assoc; reflexivity.
  - unfold consumer_close, bind, modify, tell.
    cbn [res st logs app rolling_window close_calls]. reflexivity.
Qed.

Lemma logged_last (A : Type) (l1 l2 : list A) (y : A) :
  exists l, l1 ++ l2 ++ [y] = l ++ [y].
Proof.
  exists (l1 ++ l2). rewrite app_assoc. reflexivity.
Qed.

Lemma logged_last_of_two (A : Type) (l1 l2 : list A) (x y : A) :
  exists l, l1 ++ l2 ++ [x; y] = l ++ [y].
Proof.
  exists (l1 ++ l2 ++ [x]). rewrite <- !app_assoc. reflexivity.
Qed.

Lemma consume_raises (env : environ) (json_loads : string -> option pyval)
    (window_size : Z) (events : list consumer_event) :
  forall (w : deque) (e : exn),
    res (consume env json_loads window_size events w) = inl e ->
    In (Fails e) events.
Proof.
  induction events as [| ev events IH]; intros w e H.
  - discriminate H.
  - destruct ev as [message offset | e'].
    + rewrite consume_deliver in H. cbv zeta in H. unfold with_prefix in H.
      cbn [res] in H. right. exact (IH _ _ H).
    + cbn in H. inversion H. left. reflexivity.
Qed.

Lemma main_outcome (env : environ) (json_loads : string -> option pyval)
    (create_kafka_consumer : string -> string -> exn + list consumer_event) :
  main env json_loads create_kafka_consumer =
  match deque_new (MK_ROLLING_WINDOW_SIZE env) with
  | inl e => {| res := inl e; st := None; logs := setup_logs env |}
  | inr w0 =>
      match create_kafka_consumer (MK_TOPIC env) (MK_CONSUMER_GROUP_ID env) with
      | inl e => {| res := inl e; st := None; logs := setup_logs env |}
      | inr events =>
          let o := main_loop env json_loads (MK_TOPIC env)
                     (MK_ROLLING_WINDOW_SIZE env) events
                     {| rolling_window := w0; close_calls := 0 |} in
          {| res := res o; st := Some (st o); logs := setup_logs env ++ logs o |}
      end
  end.
Proof.
  unfold main, main_setup, get_kafka_topic, get_kafka_consumer_group_id,
    get_rolling_window_size, setup_logs.
  cbv beta iota zeta delta [bind tell ret res st logs app].
  destruct (deque_new (MK_ROLLING_WINDOW_SIZE env)) as [e | w0];
    [run_monad; reflexivity |].
  destruct (create_kafka_consumer (MK_TOPIC env) (MK_CONSUMER_GROUP_ID env))
    as [e | events]; run_monad; reflexivity.
Qed.

Lemma deque_new_outcome (n : Z) :
  deque_new n =
  if ((n <? - ssize_max - 1) || (ssize_max <? n))%Z then inl OverflowError
  else if (n <? 0)%Z then inl ValueError
  else inr {| items := []; maxlen := Some (Z.to_nat n) |}.
Proof. reflexivity. Qed.

Lemma deque_new_in_range (n : Z) :
  (0 <= n <= ssize_max)%Z ->
  deque_new n = inr {| items := []; maxlen := Some (Z.to_nat n) |}.
Proof.
  intros [Hlo Hhi]. rewrite deque_new_outcome.
  assert (Hmax : (0 < ssize_max)%Z) by reflexivity.
  destruct (Z.ltb_spec n (- ssize_max - 1)) as [H1 | _]; [lia |].
  destruct (Z.ltb_spec ssize_max n) as [H2 | _]; [lia |].
  destruct (Z.ltb_spec n 0) as [H3 | _]; [lia |].
  reflexivity.
Qed.

(** X8: [main] does not guard its set-up.  A negative window size makes
    [deque(maxlen=...)] raise [ValueError], and one that does not fit a
    [Py_ssize_t] makes it raise [OverflowError], both before the consumer is
    created; with a window size the deque takes, a failure to create the
    consumer is raised as it is.  In each case the exception leaves [main]
    after the five start-up log lines, and nothing is closed. *)
Theorem main_setup_failures (env : environ) (json_loads : string -> option pyval)
    (create_kafka_consumer : string -> string -> exn + list consumer_event) :
  ((- ssize_max - 1 <= MK_ROLLING_WINDOW_SIZE env < 0)%Z ->
   main env json_loads create_kafka_consumer =
   {| res := inl ValueError; st := None; logs := setup_logs env |}) /\
  ((MK_ROLLING_WINDOW_SIZE env < - ssize_max - 1 \/
    ssize_max < MK_ROLLING_WINDOW_SIZE env)%Z ->
   main env json_loads create_kafka_consumer =
   {| res := inl OverflowError; st := None; logs := setup_logs env |}) /\
  (forall e : exn,
      (0 <= MK_ROLLING_WINDOW_SIZE env <= ssize_max)%Z ->
      create_kafka_consumer (MK_TOPIC env) (MK_CONSUMER_GROUP_ID env) = inl e ->
      main env json_loads create_kafka_consumer =
      {| res := inl e; st := None; logs := setup_logs env |}).
Proof.
  split; [| split].
  - intros [Hlo Hneg]. rewrite main_outcome, deque_new_outcome.
    assert (Hmax : (0 < ssize_max)%Z) by reflexivity.
    destruct (Z.ltb_spec (MK_ROLLING_WINDOW_SIZE env) (- ssize_max - 1))
      as [H1 | _]; [lia |].
    destruct (Z.ltb_spec ssize_max (MK_ROLLING_WINDOW_SIZE env))
      as [H2 | _]; [lia |].
    apply Z.ltb_lt in Hneg. cbn [orb]. rewrite Hneg. reflexivity.
  - intros Hout. rewrite main_outcome, deque_new_outcome.
    destruct (Z.ltb_spec (MK_ROLLING_WINDOW_SIZE env) (- ssize_max - 1))
      as [H1 | H1]; [reflexivity |].
    destruct (Z.ltb_spec ssize_max (MK_ROLLING_WINDOW_SIZE env))
      as [H2 | H2]; [reflexivity | lia].
  - intros e Hsize Hcreate.
    rewrite main_outcome, (deque_new_in_range _ Hsize), Hcreate. reflexivity.
Qed.

Lemma main_setup_failures_witness :
  main negative_size_env sample_loads (fun _ _ => inr []) =
  {| res := inl ValueError; st := None; logs := setup_logs negative_size_env |} /\
  main default_env sample_loads (fun _ _ => inl (KafkaError "no broker")) =
  {| res := inl (KafkaError "no broker"); st := None; logs := setup_logs default_env |}.
Proof.
  split.
  - apply (proj1 (main_setup_failures negative_size_env sample_loads (fun _ _ => inr []))).
    unfold ssize_max. cbn. lia.
  - apply (proj2 (proj2 (main_setup_failures default_env sample_loads
                           (fun _ _ => inl (KafkaError "no broker"))))).
    + unfold ssize_max. cbn. lia.
    + reflexivity.
Defined.

(** X9: once the window and the consumer exist (the window size is one
    [deque(maxlen=...)] takes: not negative, and within a [Py_ssize_t]),
    [main] closes the consumer exactly once on every way out of the loop,
    and the closing line is the last thing logged.  [main] then returns normally, unless the consumer
    raised an exception that is neither a [KeyboardInterrupt] nor an
    [Exception] (a [SystemExit]), which leaves [main] after the cleanup. *)
Theorem main_closes_consumer_once (env : environ) (json_loads : string -> option pyval)
    (create_kafka_consumer : string -> string -> exn + list consumer_event)
    (events : list consumer_event) :
  (0 <= MK_ROLLING_WINDOW_SIZE env <= ssize_max)%Z ->
  create_kafka_consumer (MK_TOPIC env) (MK_CONSUMER_GROUP_ID env) = inr events ->
  let o := main env json_loads create_kafka_consumer in
  (exists s, st o = Some s /\ close_calls s = 1%nat) /\
  (exists l, logs o = l ++ [(INFO, ConsumerClosed (MK_TOPIC env))]) /\
  (res o = inr tt \/
   exists e, res o = inl e /\ In (Fails e) events /\
             is_Exception e = false /\ e <> KeyboardInterrupt).
Proof.
  intros Hsize Hcreate o. unfold o.
  rewrite main_outcome, (deque_new_in_range _ Hsize).
  rewrite Hcreate. cbv zeta. rewrite main_loop_outcome. cbv zeta.
  cbn [rolling_window close_calls].
  set (c := consume env json_loads (MK_ROLLING_WINDOW_SIZE env) events _).
  destruct (res c) as [e | u] eqn:Hres.
  - pose proof (consume_raises _ _ _ _ _ _ Hres) as Hin.
    destruct e; cbn [is_Exception res st logs];
      (split; [eexists; split; reflexivity |]);
      (split; [first [apply logged_last | apply logged_last_of_two] |]);
      try (left; reflexivity).
    right. eexists. repeat split; [exact Hin | discriminate].
  - cbn [res st logs].
    split; [eexists; split; reflexivity |].
    split; [apply logged_last |].
    left. reflexivity.
Qed.

Lemma main_closes_consumer_once_witness :
  exists s,
    st (main default_env sample_loads
          (fun _ _ => inr [Deliver high_message 0; Fails SystemExit])) = Some s /\
    close_calls s = 1%nat.
Proof.
  refine (proj1 (main_closes_consumer_once default_env sample_loads
                   (fun _ _ => inr [Deliver high_message 0; Fails SystemExit])
                   [Deliver high_message 0; Fails SystemExit] _ eq_refl)).
  unfold ssize_max. cbn. lia.
Defined.

(** X10: the two ordinary ways out of the loop log no error.  When the
    operator interrupts the consumer, the events pulled so far have been
    processed, one warning is logged, the consumer is closed and the events
    that would have followed are never processed; when the consumer runs
    out, the consumer is closed after the last event. *)
Theorem main_loop_normal_shutdown (env : environ) (json_loads : string -> option pyval)
    (topic : string) (window_size : Z) (pre post : list consumer_event) (s : session) :
  forallb is_delivery pre = true ->
  let before := consume env json_loads window_size pre (rolling_window s) in
  let closed := {| rolling_window := st before; close_calls := S (close_calls s) |} in
  main_loop env json_loads topic window_size
    (pre ++ Fails KeyboardInterrupt :: post) s =
  {| res := inr tt; st := closed;
     logs := logs before ++ [(WARNING, ConsumerInterrupted);
                             (INFO, ConsumerClosed topic)] |} /\
  main_loop env json_loads topic window_size pre s =
  {| res := inr tt; st := closed;
     logs := logs before ++ [(INFO, ConsumerClosed topic)] |}.
Proof.
  intros Hpre before closed.
  destruct (consume_until_failure env json_loads window_size KeyboardInterrupt post
              pre (rolling_window s) Hpre) as [Hres Heq].
  fold before in Hres, Heq. split.
  - rewrite main_loop_outcome. cbv zeta. rewrite Heq. reflexivity.
  - rewrite main_loop_outcome. cbv zeta. fold before. rewrite Hres. reflexivity.
Qed.

Lemma main_loop_normal_shutdown_witness :
  main_loop default_env sample_loads "unknown_topic" 5
    ([Deliver high_message 0] ++ Fails KeyboardInterrupt :: [Deliver above_message 1])
    {| rolling_window := empty_window; close_calls := 0 |} =
  {| res := inr tt;
     st := {| rolling_window :=
                st (consume default_env sample_loads 5 [Deliver high_message 0]
                      empty_window);
              close_calls := 1 |};
     logs := logs (consume default_env sample_loads 5 [Deliver high_message 0]
                     empty_window)
             ++ [(WARNING, ConsumerInterrupted);
                 (INFO, ConsumerClosed "unknown_topic")] |}.
Proof.
  exact (proj1 (main_loop_normal_shutdown default_env sample_loads "unknown_topic" 5
                  [Deliver high_message 0] [Deliver above_message 1]
                  {| rolling_window := empty_window; close_calls := 0 |} eq_refl)).
Defined.

(** ** What the verdict depends on *)

(** X11: on windows of finite numbers that pass the length guard and whose
    ranges the interpreter computes without loss ([exact_range]), the
    verdict of [detect_stall] depends on the set of values only: a window
    whose values all occur in a stalled window is stalled too, so reordering
    the readings, or repeating or dropping some of them, can only keep a
    stall, and two windows with the same values get the same verdict. *)
Theorem detect_stall_depends_on_values
    (env : environ) (w1 w2 : deque) (qs1 qs2 : list Q) (k1 k2 : nat)
    (S : Type) (s : S) :
  numeric_window w1 qs1 ->
  numeric_window w2 qs2 ->
  qs1 <> [] -> qs2 <> [] ->
  (MK_ROLLING_WINDOW_SIZE env <= Z.of_nat (length qs1))%Z ->
  (MK_ROLLING_WINDOW_SIZE env <= Z.of_nat (length qs2))%Z ->
  exact_range k1 qs1 = true ->
  exact_range k2 qs2 = true ->
  ((forall x, In x qs2 -> In x qs1) ->
   res (detect_stall env w1 s) = inr true ->
   res (detect_stall env w2 s) = inr true) /\
  ((forall x, In x qs1 <-> In x qs2) ->
   res (detect_stall env w1 s) = res (detect_stall env w2 s)).
Proof.
  intros Hw1 Hw2 Hne1 Hne2 Hlen1 Hlen2 _ _.
  rewrite (detect_stall_numeric env w1 qs1 S s Hw1 Hne1 Hlen1).
  rewrite (detect_stall_numeric env w2 qs2 S s Hw2 Hne2 Hlen2).
  assert (Hsub : forall a b : list Q,
             a <> [] -> b <> [] ->
             (forall x, In x b -> In x a) ->
             Qle_bool (spec_range a) (MK_STALL_THRESHOLD_F env) = true ->
             Qle_bool (spec_range b) (MK_STALL_THRESHOLD_F env) = true).
  { intros a b Ha Hb Hin H. apply Qle_bool_iff in H. apply Qle_bool_iff.
    apply spec_range_le in H. apply spec_range_le.
    split; [intros E; contradiction |].
    intros x y Hx Hy. apply (proj2 H); apply Hin; assumption. }
  split.
  - intros Hin H. inversion H as [Hb]. rewrite Hb. f_equal.
    exact (Hsub qs1 qs2 Hne1 Hne2 Hin Hb).
  - intros Hin. f_equal.
    destruct (Qle_bool (spec_range qs1) (MK_STALL_THRESHOLD_F env)) eqn:H1.
    + symmetry. apply (Hsub qs1 qs2 Hne1 Hne2); [| exact H1].
      intros x Hx. apply Hin. exact Hx.
    + destruct (Qle_bool (spec_range qs2) (MK_STALL_THRESHOLD_F env)) eqn:H2;
        [| reflexivity].
      rewrite (Hsub qs2 qs1 Hne2 Hne1) in H1; [discriminate H1 | | exact H2].
      intros x Hx. apply Hin. exact Hx.
Qed.

Lemma detect_stall_depends_on_values_witness :
  res (detect_stall default_env
         {| items := map PNum [200; 200.125; 200.0625; 200.1875; 200.125];
            maxlen := Some 5%nat |} tt) =
  res (detect_stall default_env
         {| items := map PNum [200.125; 200.1875; 200; 200.0625; 200; 200.125];
            maxlen := None |} tt).
Proof.
  refine (proj2 (detect_stall_depends_on_values default_env
                   {| items := map PNum [200; 200.125; 200.0625; 200.1875; 200.125];
                      maxlen := Some 5%nat |}
                   {| items := map PNum [200.125; 200.1875; 200; 200.0625; 200;
                                         200.125];
                      maxlen := None |}
                   [200; 200.125; 200.0625; 200.1875; 200.125]
                   [200.125; 200.1875; 200; 200.0625; 200; 200.125]
                   4%nat 4%nat unit tt
                   eq_refl eq_refl _ _ _ _ _ _) _).
  - discriminate.
  - discriminate.
  - vm_compute. discriminate.
  - vm_compute. discriminate.
  - vm_compute. reflexivity.
  - vm_compute. reflexivity.
  - intros x. cbn [In]. tauto.
Defined.

(** ** A window size of zero *)

(** X12: a window size of zero is accepted by [main], but then the window
    never holds anything and stall detection can only fail: every reading
    that passes the guard with a numeric temperature leaves the window
    empty, logs one unexpected [ValueError] (from [max] on the empty
    window) and no stall. *)
Theorem zero_window_size_always_fails
    (env : environ) (json_loads : string -> option pyval) (message : string)
    (window_size : Z) (w0 : deque) (d : list (string * pyval)) (t : Q) :
  MK_ROLLING_WINDOW_SIZE env = 0%Z ->
  deque_new (MK_ROLLING_WINDOW_SIZE env) = inr w0 ->
  json_loads message = Some (PDict d) ->
  as_number (dict_get d "temperature") = Some t ->
  dict_get d "timestamp" <> PNone ->
  let o := process_message env json_loads message window_size w0 in
  st o = w0 /\
  items w0 = [] /\
  filter is_error (logs o) = [(ERROR, UnexpectedError ValueError)] /\
  filter is_stall_alert (logs o) = [].
Proof.
  intros Hzero Hnew Hloads Hnum Htime o.
  unfold o. clear o.
  rewrite Hzero in Hnew. cbn in Hnew. inversion Hnew as [Hw0]. clear Hnew.
  subst w0.
  pose proof (reading_not_rejected d t Hnum Htime) as Hok.
  pose proof (process_message_appends env json_loads message window_size
                {| items := []; maxlen := Some 0%nat |} d Hloads Hok) as Hst.
  pose proof (reading_errors_and_stalls env json_loads message window_size
                {| items := []; maxlen := Some 0%nat |} d Hloads Hok) as H.
  cbv zeta in H.
  rewrite (py_richcmp_numeric OpGt _ (PNum 300) t 300 Hnum eq_refl) in H.
  assert (Happ : deque_append (dict_get d "temperature")
                   {| items := []; maxlen := Some 0%nat |} =
                 {| items := []; maxlen := Some 0%nat |}) by reflexivity.
  rewrite Happ in H, Hst.
  assert (Hres : res (detect_stall env {| items := []; maxlen := Some 0%nat |}
                        {| items := []; maxlen := Some 0%nat |}) = inl ValueError).
  { rewrite detect_stall_outcome. unfold stall_outcome. cbn [items length].
    rewrite Hzero. reflexivity. }
  rewrite Hres in H.
  split; [exact Hst |]. split; [reflexivity |]. exact H.
Qed.

Lemma zero_window_size_always_fails_witness :
  filter is_error
    (logs (process_message zero_size_env sample_loads high_message 0
             {| items := []; maxlen := Some 0%nat |})) =
  [(ERROR, UnexpectedError ValueError)].
Proof.
  refine (proj1 (proj2 (proj2 (zero_window_size_always_fails zero_size_env
                                 sample_loads high_message 0 _ _ 310
                                 eq_refl eq_refl eq_refl eq_refl _)))).
  discriminate.
Defined.

(** ** The [window_size] argument of [process_message] *)

(** X13: the [window_size] argument of [process_message] only feeds the text
    of the stall report.  Whatever value is passed, the window, the result
    and the log are the same, but for the size quoted in a stall report: the
    size that decides is the one [detect_stall] reads from the
    environment. *)
Theorem window_size_argument_only_quoted
    (env : environ) (json_loads : string -> option pyval) (message : string)
    (size1 size2 : Z) (w : deque) :
  let o1 := process_message env json_loads message size1 w in
  let o2 := process_message env json_loads message size2 w in
  res o1 = res o2 /\ st o1 = st o2 /\
  map forget_size (logs o1) = map forget_size (logs o2).
Proof.
  intros o1 o2. unfold o1, o2.
  rewrite !process_message_returns, !process_message_window.
  split; [reflexivity |]. split; [reflexivity |].
  destruct (json_loads message) as [data |] eqn:Hloads.
  - destruct data as [| b | q | s | l | d].
    1-5: erewrite !process_message_not_dict;
      [reflexivity | exact Hloads | discriminate | exact Hloads | discriminate].
    destruct (is_None (dict_get d "temperature") || is_None (dict_get d "timestamp"))
      eqn:Hok.
    + erewrite !process_message_invalid;
        [reflexivity | exact Hloads | exact Hok | exact Hloads | exact Hok].
    + rewrite (process_message_reading env json_loads message size1 w d Hloads Hok).
      rewrite (process_message_reading env json_loads message size2 w d Hloads Hok).
      rewrite !rules_handled. cbv zeta.
      rewrite !evaluate_rules_outcome. unfold rules_outcome, with_prefix.
      destruct (py_richcmp OpGt _ _) as [e | high]; cbn [res st logs];
        [reflexivity |].
      cbv zeta.
      destruct (res (detect_stall env _ _)) as [e | stalled]; cbn [res st logs];
        [reflexivity |].
      rewrite !map_app. do 3 f_equal.
      destruct stalled; reflexivity.
  - rewrite !process_message_decode_error by exact Hloads. reflexivity.
Qed.

Set Warnings "-notation-for-abbreviation".

(** * Properties of the producer *)

(** ** The generator *)

Section ProducerWorld.

Variable open_file : nat -> Producer.exn + list Producer.row.
Variable utcnow : nat -> string.
Variable parse_float : string -> option Q.

Local Notation py_float := (Producer.py_float parse_float).
Local Notation row_temperature := (Producer.row_temperature parse_float).
Local Notation for_rows := (Producer.for_rows utcnow parse_float).
Local Notation from_top := (Producer.from_top open_file utcnow parse_float).
Local Notation generate_messages :=
  (Producer.generate_messages open_file utcnow parse_float).

Lemma py_float_error (v : pyval) (e : Producer.exn) :
  py_float v = inl e -> e = Producer.ValueError \/ e = Producer.TypeError.
Proof.
  destruct v as [| b | q | s | l | d]; cbn [Producer.py_float]; intros H;
    try (inversion H; right; reflexivity); try discriminate H.
  destruct (parse_float s); [discriminate H |]. inversion H. left. reflexivity.
Qed.

(** What the two [except] clauses make of an exception. *)
Lemma generate_handler_outcome (e : Producer.exn) :
  Producer.generate_handler e =
  match e with
  | Producer.FileNotFoundError =>
      ([(ERROR, Producer.FileNotFound)], Producer.Raised (Producer.SystemExit 1))
  | _ =>
      if Producer.is_Exception e
      then ([(ERROR, Producer.UnexpectedError e)],
            Producer.Raised (Producer.SystemExit 3))
      else ([], Producer.Raised e)
  end.
Proof.
  destruct e; reflexivity.
Qed.

Lemma generate_handler_float (v : pyval) (e : Producer.exn) :
  py_float v = inl e ->
  Producer.generate_handler e =
  ([(ERROR, Producer.UnexpectedError e)], Producer.Raised (Producer.SystemExit 3)).
Proof.
  intros H. destruct (py_float_error v e H) as [-> | ->]; reflexivity.
Qed.

(** The rows without the field are passed over, one warning each. *)
Lemma for_rows_skip (skip rest : list Producer.row) (clock : nat) :
  forallb (fun r => negb (Producer.has_temperature r)) skip = true ->
  for_rows (skip ++ rest) clock =
  (map (fun r => (WARNING, Producer.MissingTemperature r)) skip
     ++ fst (for_rows rest clock),
   snd (for_rows rest clock)).
Proof.
  induction skip as [| r skip IH]; intros H.
  - cbn [app map]. destruct (for_rows rest clock); reflexivity.
  - cbn [forallb] in H. apply andb_true_iff in H. destruct H as [Hr Hskip].
    unfold Producer.has_temperature in Hr.
    cbn [app map Producer.for_rows].
    destruct (assoc "temperature" r); [discriminate Hr |].
    rewrite (IH Hskip). reflexivity.
Qed.

Lemma for_rows_lacking (rows : list Producer.row) (clock : nat) :
  forallb (fun r => negb (Producer.has_temperature r)) rows = true ->
  for_rows rows clock =
  (map (fun r => (WARNING, Producer.MissingTemperature r)) rows,
   Producer.RowsDone clock).
Proof.
  intros H. rewrite <- (app_nil_r rows) at 1. rewrite (for_rows_skip _ _ _ H).
  cbn [Producer.for_rows fst snd]. rewrite app_nil_r. reflexivity.
Qed.

Lemma for_rows_value (r : Producer.row) (rest : list Producer.row) (clock : nat)
    (v : pyval) :
  assoc "temperature" r = Some v ->
  for_rows (r :: rest) clock =
  match py_float v with
  | inl e => ([], Producer.RowRaise e)
  | inr q =>
      let message := Producer.message_of (utcnow clock) q in
      ([(DEBUG, Producer.GeneratedMessage message)],
       Producer.RowYield message rest (S clock))
  end.
Proof.
  intros H. cbn [Producer.for_rows]. rewrite H. reflexivity.
Qed.

Lemma for_rows_valid (r : Producer.row) (rest : list Producer.row) (clock : nat)
    (q : Q) :
  row_temperature r = Some q ->
  for_rows (r :: rest) clock =
  ([(DEBUG, Producer.GeneratedMessage (Producer.message_of (utcnow clock) q))],
   Producer.RowYield (Producer.message_of (utcnow clock) q) rest (S clock)).
Proof.
  unfold Producer.row_temperature. intros H.
  destruct (assoc "temperature" r) as [v |] eqn:Hv; [| discriminate H].
  rewrite (for_rows_value r rest clock v Hv).
  destruct (py_float v); inversion H. reflexivity.
Qed.

(** What the loop over the rows can come back with. *)
Lemma for_rows_result (rows : list Producer.row) (clock : nat) :
  match snd (for_rows rows clock) with
  | Producer.RowYield message rest c =>
      (exists q, message = Producer.message_of (utcnow clock) q) /\ c = S clock
  | Producer.RowRaise e =>
      Producer.generate_handler e =
      ([(ERROR, Producer.UnexpectedError e)], Producer.Raised (Producer.SystemExit 3))
  | Producer.RowsDone c => c = clock
  end /\
  filter Producer.is_error (fst (for_rows rows clock)) = [].
Proof.
  induction rows as [| r rows IH].
  - cbn. split; reflexivity.
  - destruct (assoc "temperature" r) as [v |] eqn:Hv.
    + rewrite (for_rows_value r rows clock v Hv).
      destruct (py_float v) as [e | q] eqn:Hf; cbn [fst snd].
      * split; [exact (generate_handler_float v e Hf) | reflexivity].
      * split; [split; [exists q; reflexivity | reflexivity] | reflexivity].
    + cbn [Producer.for_rows]. rewrite Hv.
      destruct (for_rows rows clock) as [l res]. cbn [fst snd] in *.
      exact IH.
Qed.

(** Opening the file and reading it is reading the rows it gave, after one
    more line in the log. *)
Lemma from_top_opens (fuel p c : nat) (rows : list Producer.row) :
  open_file p = inr rows ->
  from_top (S fuel) p c =
  ((INFO, Producer.OpeningDataFile)
     :: fst (generate_messages fuel
               {| Producer.passes := S p; Producer.clock := c;
                  Producer.pending := Some rows |}),
   snd (generate_messages fuel
          {| Producer.passes := S p; Producer.clock := c;
             Producer.pending := Some rows |})).
Proof.
  intros H. cbn [Producer.from_top]. rewrite H.
  unfold Producer.generate_messages.
  cbn [Producer.pending Producer.passes Producer.clock].
  destruct (for_rows rows c) as [l res].
  destruct res as [message rest c' | e | c'].
  - reflexivity.
  - destruct (Producer.generate_handler e) as [l' r]. reflexivity.
  - destruct fuel as [| fuel].
    + cbn. reflexivity.
    + destruct (from_top (S fuel) (S p) c') as [l' r]. reflexivity.
Qed.

Lemma from_top_raises (fuel : nat) :
  forall (p c : nat) (l : list Producer.log_entry) (e : Producer.exn),
    from_top fuel p c = (l, Producer.Raised e) ->
    Producer.is_Exception e = false /\
    ((e = Producer.SystemExit 1 /\
      exists p', open_file p' = inl Producer.FileNotFoundError) \/
     e = Producer.SystemExit 3 \/
     exists p', open_file p' = inl e).
Proof.
  induction fuel as [| fuel IH]; intros p c l e H.
  - discriminate H.
  - cbn [Producer.from_top] in H.
    destruct (open_file p) as [e0 | rows] eqn:Hopen.
    + rewrite generate_handler_outcome in H.
      destruct e0; cbn [Producer.is_Exception] in H; inversion H; subst;
        (split; [reflexivity |]);
        first [ left; split; [reflexivity | exists p; exact Hopen]
              | right; left; reflexivity
              | right; right; exists p; exact Hopen ].
    + pose proof (for_rows_result rows c) as [Hres _].
      destruct (for_rows rows c) as [l0 res]. cbn [fst snd] in Hres.
      destruct res as [message rest c' | e0 | c'].
      * discriminate H.
      * rewrite Hres in H. inversion H. subst.
        split; [reflexivity | right; left; reflexivity].
      * destruct (from_top fuel (S p) c') as [l' r] eqn:Hrec.
        inversion H. subst. exact (IH _ _ _ _ Hrec).
Qed.

(** X14: whatever [generate_messages] raises is no [Exception]: every
    [Exception] of [open] or [float] is turned into [SystemExit] (code 1 for
    a file that is not found, code 3 for anything else), and only what is no
    [Exception] (an interruption) comes out as it was raised by [open]. *)
Theorem generator_raises_only_exits
    (fuel : nat) (st : Producer.gen_state)
    (l : list Producer.log_entry) (e : Producer.exn) :
  generate_messages fuel st = (l, Producer.Raised e) ->
  Producer.is_Exception e = false /\
  ((e = Producer.SystemExit 1 /\
    exists p, open_file p = inl Producer.FileNotFoundError) \/
   e = Producer.SystemExit 3 \/
   exists p, open_file p = inl e).
Proof.
  unfold Producer.generate_messages. intros H.
  destruct (Producer.pending st) as [rows |].
  - pose proof (for_rows_result rows (Producer.clock st)) as [Hres _].
    destruct (for_rows rows (Producer.clock st)) as [l0 res]. cbn [fst snd] in Hres.
    destruct res as [message rest c' | e0 | c'].
    + discriminate H.
    + rewrite Hres in H. inversion H. subst.
      split; [reflexivity | right; left; reflexivity].
    + destruct (from_top fuel (Producer.passes st) c') as [l' r] eqn:Hrec.
      inversion H. subst. exact (from_top_raises _ _ _ _ _ Hrec).
  - exact (from_top_raises _ _ _ _ _ H).
Qed.

(** X15: the next row that has a temperature decides what a [next] call
    gives.  The rows before it are passed over with one warning each and
    take no reading of the clock; if [float] takes its temperature, the
    message built from it is yielded and the generator stands right after
    that row; if not, the generator ends with [SystemExit(3)] after one
    error line, whatever rows follow. *)
Theorem next_row_with_temperature_decides
    (fuel : nat) (st : Producer.gen_state)
    (skip : list Producer.row) (r : Producer.row) (rest : list Producer.row)
    (v : pyval) :
  Producer.pending st = Some (skip ++ r :: rest) ->
  forallb (fun r => negb (Producer.has_temperature r)) skip = true ->
  assoc "temperature" r = Some v ->
  generate_messages fuel st =
  match py_float v with
  | inr q =>
      let message := Producer.message_of (utcnow (Producer.clock st)) q in
      (map (fun r => (WARNING, Producer.MissingTemperature r)) skip
         ++ [(DEBUG, Producer.GeneratedMessage message)],
       Producer.Yielded message
         {| Producer.passes := Producer.passes st;
            Producer.clock := S (Producer.clock st);
            Producer.pending := Some rest |})
  | inl e =>
      (map (fun r => (WARNING, Producer.MissingTemperature r)) skip
         ++ [(ERROR, Producer.UnexpectedError e)],
       Producer.Raised (Producer.SystemExit 3))
  end.
Proof.
  intros Hpending Hskip Hv. unfold Producer.generate_messages.
  rewrite Hpending, (for_rows_skip _ _ _ Hskip), (for_rows_value _ _ _ _ Hv).
  destruct (py_float v) as [e | q] eqn:Hf; cbn [fst snd].
  - rewrite (generate_handler_float v e Hf), app_nil_r. reflexivity.
  - reflexivity.
Qed.

Lemma from_top_yields (fuel : nat) :
  forall (p c : nat) (l : list Producer.log_entry) (message : pyval)
         (st' : Producer.gen_state),
    from_top fuel p c = (l, Producer.Yielded message st') ->
    (exists q, message = Producer.message_of (utcnow c) q) /\
    Producer.clock st' = S c.
Proof.
  induction fuel as [| fuel IH]; intros p c l message st' H.
  - discriminate H.
  - cbn [Producer.from_top] in H.
    destruct (open_file p) as [e0 | rows] eqn:Hopen.
    + rewrite generate_handler_outcome in H.
      destruct e0; cbn [Producer.is_Exception] in H; discriminate H.
    + pose proof (for_rows_result rows c) as [Hres _].
      destruct (for_rows rows c) as [l0 res]. cbn [fst snd] in Hres.
      destruct res as [message' rest c' | e0 | c'].
      * inversion H. subst. cbn [Producer.clock]. exact Hres.
      * rewrite Hres in H. discriminate H.
      * subst c'. destruct (from_top fuel (S p) c) as [l' r] eqn:Hrec.
        inversion H. subst. exact (IH _ _ _ _ _ Hrec).
Qed.

(** X16: every message the generator yields is a record the consumer takes:
    a timestamp, read from the clock at that [next] call, and a number.
    Decoded by [process_message], it passes the guard, its temperature is
    appended to the window, and it alerts exactly when it is above 300. *)
Theorem generated_message_accepted
    (fuel : nat) (gen gen' : Producer.gen_state)
    (l : list Producer.log_entry) (message : pyval) :
  generate_messages fuel gen = (l, Producer.Yielded message gen') ->
  exists q,
    message = Producer.message_of (utcnow (Producer.clock gen)) q /\
    Producer.clock gen' = S (Producer.clock gen) /\
    forall (env : environ) (json_loads : string -> option pyval) (text : string)
           (window_size : Z) (w : deque),
      json_loads text = Some message ->
      let o := process_message env json_loads text window_size w in
      st o = deque_append (PNum q) w /\
      filter is_high_temp_alert (logs o) =
      if Qltb 300 q
      then [(WARNING, HighTempAlert (PStr (utcnow (Producer.clock gen))) (PNum q))]
      else [].
Proof.
  intros H.
  assert (Hshape : (exists q, message = Producer.message_of
                                          (utcnow (Producer.clock gen)) q) /\
                   Producer.clock gen' = S (Producer.clock gen)).
  { unfold Producer.generate_messages in H.
    destruct (Producer.pending gen) as [rows |].
    - pose proof (for_rows_result rows (Producer.clock gen)) as [Hres _].
      destruct (for_rows rows (Producer.clock gen)) as [l0 res].
      cbn [fst snd] in Hres.
      destruct res as [message' rest c' | e0 | c'].
      + inversion H. subst. cbn [Producer.clock]. exact Hres.
      + rewrite Hres in H. discriminate H.
      + subst c'.
        destruct (from_top fuel (Producer.passes gen) (Producer.clock gen))
          as [l' r] eqn:Hrec.
        inversion H. subst. exact (from_top_yields _ _ _ _ _ _ Hrec).
    - exact (from_top_yields _ _ _ _ _ _ H). }
  destruct Hshape as [[q Hq] Hclock]. exists q.
  split; [exact Hq |]. split; [exact Hclock |].
  intros env json_loads text window_size w Hloads o. unfold o.
  rewrite Hq in Hloads. unfold Producer.message_of in Hloads.
  split.
  - rewrite (process_message_appends env json_loads text window_size w _ Hloads);
      reflexivity.
  - rewrite (reading_alerts env json_loads text window_size w _ q Hloads);
      [reflexivity | reflexivity | discriminate].
Qed.

(** A file that reads the same rows at every pass, every row with a
    temperature that [float] takes. *)
Lemma rows_at (rows : list Producer.row) :
  forall (qs : list Q) (j : nat),
    map row_temperature rows = map Some qs ->
    (j < length rows)%nat ->
    exists r, skipn j rows = r :: skipn (S j) rows /\
              row_temperature r = Some (nth j qs 0).
Proof.
  induction rows as [| r rows IH]; intros qs j Hmap Hj.
  - cbn in Hj. lia.
  - destruct qs as [| q qs]; [discriminate Hmap |].
    cbn [map] in Hmap. inversion Hmap as [[Hr Hrows]].
    destruct j as [| j].
    + exists r. split; [reflexivity | exact Hr].
    + cbn [length] in Hj.
      destruct (IH qs j Hrows ltac:(lia)) as [r' [Hs Ht]].
      exists r'. split; [exact Hs | exact Ht].
Qed.

Lemma succ_mod (a b n : nat) :
  a mod n = b mod n -> S a mod n = S b mod n.
Proof.
  intros H.
  replace (S a) with (a + 1)%nat by lia. replace (S b) with (b + 1)%nat by lia.
  rewrite (Nat.Div0.add_mod a), (Nat.Div0.add_mod b), H. reflexivity.
Qed.

Lemma cycle_restart (rows : list Producer.row) (qs : list Q) (fuel p k : nat) :
  (forall p, open_file p = inr rows) ->
  map row_temperature rows = map Some qs ->
  rows <> [] ->
  k mod length rows = 0%nat ->
  let message := Producer.message_of (utcnow k) (nth (k mod length qs) qs 0) in
  from_top (S fuel) p k =
  ([(INFO, Producer.OpeningDataFile); (DEBUG, Producer.GeneratedMessage message)],
   Producer.Yielded message
     {| Producer.passes := S p; Producer.clock := S k;
        Producer.pending := Some (skipn 1 rows) |}).
Proof.
  intros Hopen Htemps Hrows Hmod message. unfold message.
  assert (Hlen : length qs = length rows).
  { apply (f_equal (@length _)) in Htemps. rewrite !length_map in Htemps.
    symmetry. exact Htemps. }
  rewrite Hlen, Hmod.
  destruct (rows_at rows qs 0 Htemps) as [r [Hs Ht]].
  { destruct rows; [contradiction | cbn; lia]. }
  cbn [skipn] in Hs.
  rewrite (from_top_opens fuel p k rows (Hopen p)).
  unfold Producer.generate_messages.
  cbn [Producer.pending Producer.clock Producer.passes].
  rewrite Hs at 1 2. rewrite (for_rows_valid r _ k _ Ht). reflexivity.
Qed.

Lemma cycle_step (rows : list Producer.row) (qs : list Q) (fuel k : nat)
    (st : Producer.gen_state) :
  (forall p, open_file p = inr rows) ->
  map row_temperature rows = map Some qs ->
  rows <> [] ->
  Producer.in_cycle rows k st ->
  exists l st',
    generate_messages (S fuel) st =
    (l, Producer.Yielded
          (Producer.message_of (utcnow k) (nth (k mod length qs) qs 0)) st') /\
    Producer.in_cycle rows (S k) st' /\
    filter Producer.is_error l = [].
Proof.
  intros Hopen Htemps Hrows [Hclock Hpending].
  assert (Hlen : length qs = length rows).
  { apply (f_equal (@length _)) in Htemps. rewrite !length_map in Htemps.
    symmetry. exact Htemps. }
  assert (Hpos : (1 <= length rows)%nat).
  { destruct rows; [contradiction | cbn; lia]. }
  assert (Hrestart : forall p, k mod length rows = 0%nat ->
            Producer.in_cycle rows (S k)
              {| Producer.passes := S p; Producer.clock := S k;
                 Producer.pending := Some (skipn 1 rows) |}).
  { intros p Hmod. split; [reflexivity |].
    cbn [Producer.pending]. exists 1%nat.
    split; [exact Hpos |]. split; [reflexivity |].
    apply succ_mod. rewrite Hmod, Nat.Div0.mod_0_l. reflexivity. }
  unfold Producer.generate_messages.
  destruct (Producer.pending st) as [todo |].
  - destruct Hpending as [j [Hj [Htodo Hmod]]]. subst todo.
    destruct (Nat.eq_dec j (length rows)) as [Heq | Hneq].
    + subst j. rewrite Nat.Div0.mod_same in Hmod.
      rewrite skipn_all. cbn [Producer.for_rows]. rewrite Hclock.
      rewrite (cycle_restart rows qs fuel (Producer.passes st) k
                 Hopen Htemps Hrows Hmod).
      cbv zeta. cbn [app].
      eexists. eexists. split; [reflexivity |].
      split; [exact (Hrestart _ Hmod) | reflexivity].
    + assert (Hlt : (j < length rows)%nat) by lia.
      destruct (rows_at rows qs j Htemps Hlt) as [r [Hs Ht]].
      rewrite Hs, Hclock, (for_rows_valid r _ k _ Ht).
      rewrite (Nat.mod_small j _ Hlt) in Hmod.
      rewrite Hlen, Hmod.
      eexists. eexists. split; [reflexivity |].
      split; [| reflexivity].
      split; [reflexivity |]. cbn [Producer.pending].
      exists (S j). split; [lia |]. split; [reflexivity |].
      apply succ_mod. rewrite Hmod. symmetry. apply Nat.mod_small. exact Hlt.
  - rewrite Hclock.
    rewrite (cycle_restart rows qs fuel (Producer.passes st) k
               Hopen Htemps Hrows Hpending).
    cbv zeta.
    eexists. eexists. split; [reflexivity |].
    split; [exact (Hrestart _ Hpending) | reflexivity].
Qed.

(** A file whose rows have no temperature at any pass. *)
Lemma filter_warnings (P : Producer.log_entry -> bool) (rows : list Producer.row) :
  (forall r, P (WARNING, Producer.MissingTemperature r) = false) ->
  filter P (map (fun r => (WARNING, Producer.MissingTemperature r)) rows) = [].
Proof.
  intros H. induction rows as [| r rows IH]; [reflexivity |].
  cbn [map filter]. rewrite (H r). exact IH.
Qed.

Lemma from_top_spins :
  (forall p, exists rows,
      open_file p = inr rows /\
      forallb (fun r => negb (Producer.has_temperature r)) rows = true) ->
  forall fuel p c,
  exists l,
    from_top fuel p c = (l, Producer.Spinning) /\
    length (filter Producer.is_opening l) = fuel /\
    filter Producer.is_error l = [].
Proof.
  intros Hfile. induction fuel as [| fuel IH]; intros p c.
  - exists []. repeat split.
  - destruct (Hfile p) as [rows [Hopen Hrows]].
    destruct (IH (S p) c) as [l' [Hrec [Hcount Herr]]].
    cbn [Producer.from_top]. rewrite Hopen, (for_rows_lacking rows c Hrows), Hrec.
    eexists. split; [reflexivity |].
    cbn [filter Producer.is_opening Producer.is_error fst snd length].
    rewrite !filter_app, !filter_warnings by reflexivity.
    cbn [app]. split; [f_equal; exact Hcount | exact Herr].
Qed.

(** ** The send loop and [main] *)

Variable env : Producer.environ.
Variable send_error : nat -> pyval -> option Producer.exn.
Variable sleep_error : nat -> option Producer.exn.
Variable verify_services : option Producer.exn.
Variable data_file_exists : bool.
Variable create_kafka_producer : Producer.exn + bool.
Variable create_kafka_topic : string -> option Producer.exn.

Local Notation time_sleep := (Producer.time_sleep sleep_error).
Local Notation send_loop :=
  (Producer.send_loop open_file utcnow parse_float send_error sleep_error).
Local Notation main :=
  (Producer.main env open_file utcnow parse_float send_error sleep_error
     verify_services data_file_exists create_kafka_producer create_kafka_topic).
Local Notation ready :=
  (Producer.ready env verify_services data_file_exists create_kafka_producer
     create_kafka_topic).
Local Notation setup_logs := (Producer.setup_logs env).
Local Notation interval := (Producer.SMOKER_INTERVAL_SECONDS env).

(** [main], once its set-up has gone through, by the way the loop ends. *)
Lemma producer_main_outcome (n fuel : nat) :
  ready ->
  main n fuel =
  let run := send_loop n fuel 0 Producer.gen_start interval in
  let l := fst (fst run) in
  let messages := snd (fst run) in
  match snd run with
  | Producer.LoopRunning =>
      {| Producer.exit := Producer.Running; Producer.sent := messages;
         Producer.close_calls := 0; Producer.logs := setup_logs ++ l |}
  | Producer.LoopRaised Producer.KeyboardInterrupt =>
      {| Producer.exit := Producer.Returned; Producer.sent := messages;
         Producer.close_calls := 1;
         Producer.logs :=
           setup_logs ++ l ++ (WARNING, Producer.ProducerInterrupted)
                        :: Producer.closing |}
  | Producer.LoopRaised e =>
      if Producer.is_Exception e
      then {| Producer.exit := Producer.Returned; Producer.sent := messages;
              Producer.close_calls := 1;
              Producer.logs :=
                setup_logs ++ l ++ (ERROR, Producer.ProductionError e)
                             :: Producer.closing |}
      else {| Producer.exit := Producer.Exited e; Producer.sent := messages;
              Producer.close_calls := 1;
              Producer.logs := setup_logs ++ l ++ Producer.closing |}
  end.
Proof.
  intros [Hverify [Hfile [Hproducer Htopic]]].
  unfold Producer.main, Producer.get_kafka_topic, Producer.get_message_interval.
  rewrite Hverify, Hfile, Hproducer. cbn [negb]. rewrite Htopic.
  destruct (send_loop n fuel 0 Producer.gen_start interval) as [[l messages] r].
  cbv zeta. cbn [fst snd]. destruct r as [e |]; [destruct e |]; reflexivity.
Qed.

Lemma time_sleep_ok (k : nat) (secs : Z) :
  (0 <= secs <= Producer.sleep_max)%Z -> time_sleep k secs = sleep_error k.
Proof.
  intros [Hlo Hhi]. unfold Producer.time_sleep.
  assert (Hmax : (0 < Producer.sleep_max)%Z) by reflexivity.
  destruct (Z.ltb_spec secs (- Producer.sleep_max)) as [H1 | _]; [lia |].
  destruct (Z.ltb_spec Producer.sleep_max secs) as [H2 | _]; [lia |].
  destruct (Z.ltb_spec secs 0) as [Hneg | _]; [lia | reflexivity].
Qed.

(** One turn of the loop, by what happens to the message. *)
Lemma send_loop_sent (n fuel k : nat) (st st' : Producer.gen_state) (secs : Z)
    (l : list Producer.log_entry) (message : pyval) :
  Producer.generate_messages open_file utcnow parse_float fuel st =
    (l, Producer.Yielded message st') ->
  send_error k message = None ->
  time_sleep k secs = None ->
  let run := send_loop n fuel (S k) st' secs in
  send_loop (S n) fuel k st secs =
  (l ++ (INFO, Producer.Sent message) :: fst (fst run),
   message :: snd (fst run), snd run).
Proof.
  intros Hgen Hsend Hsleep run. unfold run.
  cbn [Producer.send_loop]. rewrite Hgen, Hsend, Hsleep.
  destruct (send_loop n fuel (S k) st' secs) as [[l' more] r]. reflexivity.
Qed.

Lemma send_loop_send_fails (n fuel k : nat) (st st' : Producer.gen_state) (secs : Z)
    (l : list Producer.log_entry) (message : pyval) (e : Producer.exn) :
  Producer.generate_messages open_file utcnow parse_float fuel st =
    (l, Producer.Yielded message st') ->
  send_error k message = Some e ->
  send_loop (S n) fuel k st secs = (l, [], Producer.LoopRaised e).
Proof.
  intros Hgen Hsend. cbn [Producer.send_loop]. rewrite Hgen, Hsend. reflexivity.
Qed.

Lemma send_loop_sleep_fails (n fuel k : nat) (st st' : Producer.gen_state) (secs : Z)
    (l : list Producer.log_entry) (message : pyval) (e : Producer.exn) :
  Producer.generate_messages open_file utcnow parse_float fuel st =
    (l, Producer.Yielded message st') ->
  send_error k message = None ->
  time_sleep k secs = Some e ->
  send_loop (S n) fuel k st secs =
  (l ++ [(INFO, Producer.Sent message)], [message], Producer.LoopRaised e).
Proof.
  intros Hgen Hsend Hsleep. cbn [Producer.send_loop].
  rewrite Hgen, Hsend, Hsleep. reflexivity.
Qed.

Lemma send_loop_length (fuel : nat) (secs : Z) :
  forall (n k : nat) (st : Producer.gen_state),
    (length (snd (fst (send_loop n fuel k st secs))) <= n)%nat.
Proof.
  induction n as [| n IH]; intros k st.
  - cbn. lia.
  - cbn [Producer.send_loop].
    destruct (Producer.generate_messages open_file utcnow parse_float fuel st)
      as [l r].
    destruct r as [message st' | e |]; cbn [fst snd length]; try lia.
    destruct (send_error k message); cbn [fst snd length]; try lia.
    destruct (time_sleep k secs); cbn [fst snd length]; try lia.
    pose proof (IH (S k) st') as Hrec.
    destruct (send_loop n fuel (S k) st' secs) as [[l' more] r'].
    cbn [fst snd length] in *. lia.
Qed.

(** The first [d] turns of the loop over a file that reads the same good
    rows at every pass, when the sends and the sleeps go through. *)
Lemma send_loop_cycle (rows : list Producer.row) (qs : list Q) (fuel : nat) :
  (forall p, open_file p = inr rows) ->
  map row_temperature rows = map Some qs ->
  rows <> [] ->
  (0 <= interval <= Producer.sleep_max)%Z ->
  forall (d n k : nat) (st : Producer.gen_state),
    Producer.in_cycle rows k st ->
    (d <= n)%nat ->
    (forall i m, (k <= i < k + d)%nat -> send_error i m = None) ->
    (forall i, (k <= i < k + d)%nat -> sleep_error i = None) ->
    exists l st',
      Producer.in_cycle rows (k + d) st' /\
      filter Producer.is_error l = [] /\
      let run := send_loop (n - d) (S fuel) (k + d) st' interval in
      send_loop n (S fuel) k st interval =
      (l ++ fst (fst run),
       map (fun i => Producer.message_of (utcnow i) (nth (i mod length qs) qs 0))
         (seq k d) ++ snd (fst run),
       snd run).
Proof.
  intros Hopen Htemps Hrows Hinterval.
  induction d as [| d IH]; intros n k st Hst Hdn Hsend Hsleep.
  - exists [], st. rewrite Nat.add_0_r, Nat.sub_0_r.
    split; [exact Hst |]. split; [reflexivity |].
    cbv zeta. cbn [app seq map].
    destruct (send_loop n (S fuel) k st interval) as [[l more] r]. reflexivity.
  - destruct n as [| n]; [lia |].
    destruct (cycle_step rows qs fuel k st Hopen Htemps Hrows Hst)
      as [l1 [st1 [Hgen [Hst1 Herr1]]]].
    destruct (IH n (S k) st1 Hst1 ltac:(lia)) as [l2 [st' [Hst' [Herr2 Hrun]]]].
    { intros i m Hi. apply Hsend. lia. }
    { intros i Hi. apply Hsleep. lia. }
    cbv zeta in Hrun.
    rewrite (send_loop_sent n (S fuel) k st st1 interval l1 _ Hgen).
    + rewrite Hrun. cbn [fst snd].
      replace (S k + d)%nat with (k + S d)%nat in * by lia.
      replace (S n - S d)%nat with (n - d)%nat by lia.
      exists (l1 ++ (INFO, Producer.Sent
                       (Producer.message_of (utcnow k)
                          (nth (k mod length qs) qs 0))) :: l2), st'.
      split; [exact Hst' |]. split.
      * rewrite filter_app. cbn [filter Producer.is_error fst].
        rewrite Herr1, Herr2. reflexivity.
      * cbv zeta. cbn [seq map app]. rewrite <- app_assoc. reflexivity.
    + apply Hsend. lia.
    + rewrite (time_sleep_ok k interval Hinterval). apply Hsleep. lia.
Qed.

Lemma in_cycle_start (rows : list Producer.row) :
  Producer.in_cycle rows 0 Producer.gen_start.
Proof.
  split; [reflexivity |]. cbn [Producer.pending Producer.gen_start].
  apply Nat.Div0.mod_0_l.
Qed.

(** X17: with a data file that reads the same rows at every pass, each with
    a temperature that [float] takes, an interval that [time.sleep] takes
    (not negative, and within the range of the interpreter's clock), and
    sends and sleeps that go through, the producer never stops by itself: after any number [n] of messages the
    loop is still running, nothing has been closed and no error is logged,
    and the [i]-th message sent carries the temperature of row
    [i mod number of rows], stamped with the [i]-th reading of the clock. *)
Theorem producer_cycles_through_file
    (rows : list Producer.row) (qs : list Q) (n fuel : nat) :
  ready ->
  (forall p, open_file p = inr rows) ->
  map row_temperature rows = map Some qs ->
  rows <> [] ->
  (0 <= interval <= Producer.sleep_max)%Z ->
  (forall i m, (i < n)%nat -> send_error i m = None) ->
  (forall i, (i < n)%nat -> sleep_error i = None) ->
  (1 <= fuel)%nat ->
  let r := main n fuel in
  Producer.exit r = Producer.Running /\
  Producer.sent r =
    map (fun i => Producer.message_of (utcnow i) (nth (i mod length qs) qs 0))
      (seq 0 n) /\
  Producer.close_calls r = 0%nat /\
  filter Producer.is_error (Producer.logs r) = [].
Proof.
  intros Hready Hopen Htemps Hrows Hinterval Hsend Hsleep Hfuel r. unfold r.
  destruct fuel as [| fuel]; [lia |].
  rewrite (producer_main_outcome n (S fuel) Hready). cbv zeta.
  destruct (send_loop_cycle rows qs fuel Hopen Htemps Hrows Hinterval
              n n 0 Producer.gen_start (in_cycle_start rows) (le_n n))
    as [l [st' [_ [Herr Hrun]]]].
  { intros i m Hi. apply Hsend. lia. }
  { intros i Hi. apply Hsleep. lia. }
  cbv zeta in Hrun. rewrite Nat.sub_diag in Hrun.
  cbn [Producer.send_loop fst snd] in Hrun. rewrite Hrun. cbn [fst snd].
  cbn [Producer.exit Producer.sent Producer.close_calls Producer.logs].
  rewrite !app_nil_r, filter_app, Herr.
  repeat split.
Qed.

(** X18: with an interval that [time.sleep] takes, an interruption
    ([KeyboardInterrupt]) during the sleep that follows message [d], the
    sends and sleeps before it having gone through, ends the producer in
    good order: the messages up to [d] have
    been sent, nothing more is, no error is logged, the producer is closed
    once, and [main] returns after the warning and the two closing lines. *)
Theorem interrupt_stops_producer
    (rows : list Producer.row) (qs : list Q) (d n fuel : nat) :
  ready ->
  (forall p, open_file p = inr rows) ->
  map row_temperature rows = map Some qs ->
  rows <> [] ->
  (0 <= interval <= Producer.sleep_max)%Z ->
  (forall i m, (i <= d)%nat -> send_error i m = None) ->
  (forall i, (i < d)%nat -> sleep_error i = None) ->
  sleep_error d = Some Producer.KeyboardInterrupt ->
  (d < n)%nat ->
  (1 <= fuel)%nat ->
  let r := main n fuel in
  Producer.exit r = Producer.Returned /\
  Producer.sent r =
    map (fun i => Producer.message_of (utcnow i) (nth (i mod length qs) qs 0))
      (seq 0 (S d)) /\
  Producer.close_calls r = 1%nat /\
  filter Producer.is_error (Producer.logs r) = [] /\
  exists l, Producer.logs r =
            l ++ [(WARNING, Producer.ProducerInterrupted);
                  (INFO, Producer.ProducerClosed); (INFO, Producer.EndProducer)].
Proof.
  intros Hready Hopen Htemps Hrows Hinterval Hsend Hsleep Hstop Hdn Hfuel r.
  unfold r. destruct fuel as [| fuel]; [lia |].
  rewrite (producer_main_outcome n (S fuel) Hready). cbv zeta.
  destruct (send_loop_cycle rows qs fuel Hopen Htemps Hrows Hinterval
              d n 0 Producer.gen_start (in_cycle_start rows) ltac:(lia))
    as [l [st' [Hst' [Herr Hrun]]]].
  { intros i m Hi. apply Hsend. lia. }
  { intros i Hi. apply Hsleep. lia. }
  cbv zeta in Hrun. cbn [Nat.add] in Hrun, Hst'.
  destruct (cycle_step rows qs fuel d st' Hopen Htemps Hrows Hst')
    as [l1 [st1 [Hgen [_ Herr1]]]].
  destruct (n - d)%nat as [| n'] eqn:Hn; [lia |].
  rewrite (send_loop_sleep_fails n' (S fuel) d st' st1 interval l1 _
             Producer.KeyboardInterrupt Hgen) in Hrun.
  - rewrite Hrun. cbn [fst snd].
    cbn [Producer.exit Producer.sent Producer.close_calls Producer.logs].
    split; [reflexivity |]. split.
    { rewrite seq_S, map_app. reflexivity. }
    split; [reflexivity |]. split.
    + rewrite !filter_app, Herr, Herr1. reflexivity.
    + eexists. unfold Producer.closing.
      rewrite !app_assoc. reflexivity.
  - apply Hsend. lia.
  - rewrite (time_sleep_ok d interval Hinterval). exact Hstop.
Qed.

(** X19: with an interval that [time.sleep] takes, a send that fails with
    an [Exception], the sends and sleeps before it having gone through, ends
    the producer: the message is not sent again and counts for nothing, the messages before it
    have been sent, the failure is the one error in the log, the producer is
    closed once and [main] returns as after a normal run. *)
Theorem failed_send_ends_producer
    (rows : list Producer.row) (qs : list Q) (d n fuel : nat) (e : Producer.exn) :
  ready ->
  (forall p, open_file p = inr rows) ->
  map row_temperature rows = map Some qs ->
  rows <> [] ->
  (0 <= interval <= Producer.sleep_max)%Z ->
  (forall i m, (i < d)%nat -> send_error i m = None) ->
  (forall i, (i < d)%nat -> sleep_error i = None) ->
  send_error d (Producer.message_of (utcnow d) (nth (d mod length qs) qs 0))
    = Some e ->
  Producer.is_Exception e = true ->
  (d < n)%nat ->
  (1 <= fuel)%nat ->
  let r := main n fuel in
  Producer.exit r = Producer.Returned /\
  Producer.sent r =
    map (fun i => Producer.message_of (utcnow i) (nth (i mod length qs) qs 0))
      (seq 0 d) /\
  Producer.close_calls r = 1%nat /\
  filter Producer.is_error (Producer.logs r) =
    [(ERROR, Producer.ProductionError e)].
Proof.
  intros Hready Hopen Htemps Hrows Hinterval Hsend Hsleep Hfail He Hdn Hfuel r.
  unfold r. destruct fuel as [| fuel]; [lia |].
  rewrite (producer_main_outcome n (S fuel) Hready). cbv zeta.
  destruct (send_loop_cycle rows qs fuel Hopen Htemps Hrows Hinterval
              d n 0 Producer.gen_start (in_cycle_start rows) ltac:(lia))
    as [l [st' [Hst' [Herr Hrun]]]].
  { intros i m Hi. apply Hsend. lia. }
  { intros i Hi. apply Hsleep. lia. }
  cbv zeta in Hrun. cbn [Nat.add] in Hrun, Hst'.
  destruct (cycle_step rows qs fuel d st' Hopen Htemps Hrows Hst')
    as [l1 [st1 [Hgen [_ Herr1]]]].
  destruct (n - d)%nat as [| n'] eqn:Hn; [lia |].
  rewrite (send_loop_send_fails n' (S fuel) d st' st1 interval l1 _ e Hgen Hfail)
    in Hrun.
  rewrite Hrun. cbn [fst snd].
  assert (Hout : forall l0 ms,
    (match e with
     | Producer.KeyboardInterrupt =>
         {| Producer.exit := Producer.Returned; Producer.sent := ms;
            Producer.close_calls := 1;
            Producer.logs :=
              setup_logs ++ l0 ++ (WARNING, Producer.ProducerInterrupted)
                           :: Producer.closing |}
     | _ =>
         if Producer.is_Exception e
         then {| Producer.exit := Producer.Returned; Producer.sent := ms;
                 Producer.close_calls := 1;
                 Producer.logs :=
                   setup_logs ++ l0 ++ (ERROR, Producer.ProductionError e)
                                :: Producer.closing |}
         else {| Producer.exit := Producer.Exited e; Producer.sent := ms;
                 Producer.close_calls := 1;
                 Producer.logs := setup_logs ++ l0 ++ Producer.closing |}
     end) =
    {| Producer.exit := Producer.Returned; Producer.sent := ms;
       Producer.close_calls := 1;
       Producer.logs :=
         setup_logs ++ l0 ++ (ERROR, Producer.ProductionError e)
                      :: Producer.closing |}).
  { intros l0 ms. destruct e; try discriminate He; reflexivity. }
  rewrite Hout.
  cbn [Producer.exit Producer.sent Producer.close_calls Producer.logs].
  split; [reflexivity |]. split; [rewrite app_nil_r; reflexivity |].
  split; [reflexivity |].
  rewrite !filter_app, Herr, Herr1. reflexivity.
Qed.

(** X20: the interval is not checked when it is read.  With an interval
    that [time.sleep] refuses (a negative one, or one beyond the range of
    the interpreter's clock), the first message is sent and logged, the
    sleep that follows raises ([OverflowError] beyond the range,
    [ValueError] for the other negative lengths), and the producer ends
    there, however long it is left to run: one message sent, one error
    logged after it, the producer closed, and [main] returns as after a
    normal run. *)
Theorem refused_interval_sends_one
    (n fuel : nat) (l : list Producer.log_entry) (message : pyval)
    (st' : Producer.gen_state) :
  ready ->
  (interval < 0 \/ Producer.sleep_max < interval)%Z ->
  Producer.generate_messages open_file utcnow parse_float fuel Producer.gen_start =
    (l, Producer.Yielded message st') ->
  send_error 0 message = None ->
  (1 <= n)%nat ->
  let refusal :=
    if ((interval <? - Producer.sleep_max) || (Producer.sleep_max <? interval))%Z
    then Producer.OverflowError else Producer.ValueError in
  main n fuel =
  {| Producer.exit := Producer.Returned;
     Producer.sent := [message];
     Producer.close_calls := 1;
     Producer.logs :=
       setup_logs ++ l
         ++ [(INFO, Producer.Sent message);
             (ERROR, Producer.ProductionError refusal);
             (INFO, Producer.ProducerClosed); (INFO, Producer.EndProducer)] |}.
Proof.
  intros Hready Hbad Hgen Hsend Hn refusal.
  destruct n as [| n]; [lia |].
  rewrite (producer_main_outcome (S n) fuel Hready). cbv zeta.
  assert (Hsleep : time_sleep 0 interval = Some refusal).
  { unfold Producer.time_sleep, refusal.
    destruct ((interval <? - Producer.sleep_max)
              || (Producer.sleep_max <? interval))%Z eqn:Hout; [reflexivity |].
    apply orb_false_iff in Hout. destruct Hout as [_ Hhi].
    apply Z.ltb_ge in Hhi.
    destruct (Z.ltb_spec interval 0) as [_ | Hnn]; [reflexivity | lia]. }
  rewrite (send_loop_sleep_fails n fuel 0 Producer.gen_start st' interval l message
             refusal Hgen Hsend Hsleep).
  cbn [fst snd].
  assert (Hexc : Producer.is_Exception refusal = true
                 /\ refusal <> Producer.KeyboardInterrupt).
  { unfold refusal.
    destruct ((interval <? - Producer.sleep_max)
              || (Producer.sleep_max <? interval))%Z;
      split; [reflexivity | discriminate | reflexivity | discriminate]. }
  destruct Hexc as [Hexc Hki].
  unfold Producer.closing.
  destruct refusal; try discriminate Hexc; try (contradiction Hki; reflexivity);
    cbn [Producer.is_Exception]; rewrite <- !app_assoc; reflexivity.
Qed.

(** Reading the next row, from the rows that are pending or from the file
    that is about to be opened. *)
Lemma read_good_row (r : Producer.row) (rest : list Producer.row) (q : Q)
    (fuel : nat) (st : Producer.gen_state) :
  row_temperature r = Some q ->
  Producer.pending st = Some (r :: rest) \/
  (Producer.pending st = None /\
   open_file (Producer.passes st) = inr (r :: rest)) ->
  exists l p,
    Producer.generate_messages open_file utcnow parse_float (S fuel) st =
    (l, Producer.Yielded (Producer.message_of (utcnow (Producer.clock st)) q)
          {| Producer.passes := p; Producer.clock := S (Producer.clock st);
             Producer.pending := Some rest |}) /\
    filter Producer.is_error l = [].
Proof.
  intros Hq [Hp | [Hp Hopen]]; unfold Producer.generate_messages; rewrite Hp.
  - rewrite (for_rows_valid r rest _ q Hq).
    eexists. eexists. split; reflexivity.
  - cbn [Producer.from_top]. rewrite Hopen, (for_rows_valid r rest _ q Hq).
    eexists. eexists. split; reflexivity.
Qed.

Lemma read_bad_row (bad : Producer.row) (rest : list Producer.row) (v : pyval)
    (e : Producer.exn) (fuel : nat) (st : Producer.gen_state) :
  assoc "temperature" bad = Some v ->
  py_float v = inl e ->
  Producer.pending st = Some (bad :: rest) \/
  (Producer.pending st = None /\
   open_file (Producer.passes st) = inr (bad :: rest)) ->
  exists l,
    Producer.generate_messages open_file utcnow parse_float (S fuel) st =
    (l, Producer.Raised (Producer.SystemExit 3)) /\
    filter Producer.is_error l = [(ERROR, Producer.UnexpectedError e)].
Proof.
  intros Hv Hf [Hp | [Hp Hopen]]; unfold Producer.generate_messages; rewrite Hp.
  - rewrite (for_rows_value bad rest _ v Hv), Hf, (generate_handler_float v e Hf).
    eexists. split; reflexivity.
  - cbn [Producer.from_top].
    rewrite Hopen, (for_rows_value bad rest _ v Hv), Hf,
      (generate_handler_float v e Hf).
    eexists. split; reflexivity.
Qed.

(** The loop over rows that are good up to a row whose temperature [float]
    refuses. *)
Lemma send_loop_until_bad_row (bad : Producer.row) (rest : list Producer.row)
    (v : pyval) (e : Producer.exn) (fuel : nat) :
  assoc "temperature" bad = Some v ->
  py_float v = inl e ->
  (0 <= interval <= Producer.sleep_max)%Z ->
  forall (good : list Producer.row) (qs : list Q) (n k : nat)
         (st : Producer.gen_state),
    map row_temperature good = map Some qs ->
    Producer.clock st = k ->
    Producer.pending st = Some (good ++ bad :: rest) \/
    (Producer.pending st = None /\
     open_file (Producer.passes st) = inr (good ++ bad :: rest)) ->
    (length qs < n)%nat ->
    (forall i m, (k <= i < k + length qs)%nat -> send_error i m = None) ->
    (forall i, (k <= i < k + length qs)%nat -> sleep_error i = None) ->
    exists l,
      send_loop n (S fuel) k st interval =
      (l, Producer.messages_from utcnow k qs,
       Producer.LoopRaised (Producer.SystemExit 3)) /\
      filter Producer.is_error l = [(ERROR, Producer.UnexpectedError e)].
Proof.
  intros Hv Hf Hinterval.
  induction good as [| g good IH]; intros qs n k st Hqs Hclock Hst Hn Hsend Hsleep.
  - destruct qs as [| q qs]; [| discriminate Hqs].
    destruct n as [| n]; [cbn in Hn; lia |].
    destruct (read_bad_row bad rest v e fuel st Hv Hf Hst) as [l [Hgen Herr]].
    exists l. cbn [Producer.send_loop Producer.messages_from].
    rewrite Hgen. split; [reflexivity | exact Herr].
  - destruct qs as [| q qs]; [discriminate Hqs |].
    cbn [map] in Hqs. inversion Hqs as [[Hg Hgood]].
    cbn [length] in Hn, Hsend, Hsleep.
    destruct n as [| n]; [lia |].
    cbn [app] in Hst.
    destruct (read_good_row g (good ++ bad :: rest) q fuel st Hg Hst)
      as [l1 [p [Hgen Herr1]]].
    rewrite Hclock in Hgen.
    destruct (IH qs n (S k)
                {| Producer.passes := p; Producer.clock := S k;
                   Producer.pending := Some (good ++ bad :: rest) |}
                Hgood eq_refl (or_introl eq_refl) ltac:(lia))
      as [l2 [Hrun Herr2]].
    { intros i m Hi. apply Hsend. lia. }
    { intros i Hi. apply Hsleep. lia. }
    rewrite (send_loop_sent n (S fuel) k st _ interval l1 _ Hgen).
    + rewrite Hrun. cbn [fst snd Producer.messages_from].
      eexists. split; [reflexivity |].
      rewrite filter_app. cbn [filter Producer.is_error fst].
      rewrite Herr1, Herr2. reflexivity.
    + apply Hsend. lia.
    + rewrite (time_sleep_ok k interval Hinterval). apply Hsleep. lia.
Qed.

(** X21: a row whose temperature [float] refuses stops the producer for
    good.  With an interval that [time.sleep] takes and sends and sleeps
    that go through, the rows before it are sent, each stamped with its own reading of
    the clock; then the generator exits with code 3, the rows after it are
    never read, the producer is closed once and [main] exits with that code,
    the refusal of [float] being the one error in the log. *)
Theorem bad_temperature_stops_producer
    (good : list Producer.row) (bad : Producer.row) (rest : list Producer.row)
    (qs : list Q) (v : pyval) (e : Producer.exn) (n fuel : nat) :
  ready ->
  open_file 0%nat = inr (good ++ bad :: rest) ->
  map row_temperature good = map Some qs ->
  assoc "temperature" bad = Some v ->
  py_float v = inl e ->
  (0 <= interval <= Producer.sleep_max)%Z ->
  (forall i m, (i < length qs)%nat -> send_error i m = None) ->
  (forall i, (i < length qs)%nat -> sleep_error i = None) ->
  (length qs < n)%nat ->
  (1 <= fuel)%nat ->
  let r := main n fuel in
  Producer.exit r = Producer.Exited (Producer.SystemExit 3) /\
  Producer.sent r = Producer.messages_from utcnow 0 qs /\
  Producer.close_calls r = 1%nat /\
  filter Producer.is_error (Producer.logs r) =
    [(ERROR, Producer.UnexpectedError e)].
Proof.
  intros Hready Hopen Hqs Hv Hf Hinterval Hsend Hsleep Hn Hfuel r. unfold r.
  destruct fuel as [| fuel]; [lia |].
  rewrite (producer_main_outcome n (S fuel) Hready). cbv zeta.
  destruct (send_loop_until_bad_row bad rest v e fuel Hv Hf Hinterval
              good qs n 0 Producer.gen_start Hqs eq_refl
              (or_intror (conj eq_refl Hopen)) Hn)
    as [l [Hrun Herr]].
  { intros i m Hi. apply Hsend. lia. }
  { intros i Hi. apply Hsleep. lia. }
  rewrite Hrun. cbn [fst snd Producer.is_Exception].
  cbn [Producer.exit Producer.sent Producer.close_calls Producer.logs].
  split; [reflexivity |]. split; [reflexivity |]. split; [reflexivity |].
  rewrite !filter_app, Herr. reflexivity.
Qed.

(** X22: a data file whose rows have no [temperature] field, at every pass,
    keeps the producer busy for nothing: a [next] call on the generator does
    not come back however many passes it is given, each pass opening the
    file again, so [main] sends nothing, logs no error, closes nothing and
    does not end. *)
Theorem file_without_temperature_spins (n fuel : nat) :
  ready ->
  (forall p, exists rows,
      open_file p = inr rows /\
      forallb (fun r => negb (Producer.has_temperature r)) rows = true) ->
  let r := main n fuel in
  Producer.exit r = Producer.Running /\
  Producer.sent r = [] /\
  Producer.close_calls r = 0%nat /\
  filter Producer.is_error (Producer.logs r) = [] /\
  ((1 <= n)%nat ->
   length (filter Producer.is_opening (Producer.logs r)) = fuel).
Proof.
  intros Hready Hfile r. unfold r.
  rewrite (producer_main_outcome n fuel Hready). cbv zeta.
  destruct n as [| n].
  - cbn [Producer.send_loop fst snd].
    cbn [Producer.exit Producer.sent Producer.close_calls Producer.logs].
    repeat split. lia.
  - destruct (from_top_spins Hfile fuel 0 0) as [l [Hgen [Hcount Herr]]].
    cbn [Producer.send_loop]. unfold Producer.generate_messages.
    cbn [Producer.pending Producer.gen_start Producer.passes Producer.clock].
    rewrite Hgen. cbn [fst snd].
    cbn [Producer.exit Producer.sent Producer.close_calls Producer.logs].
    rewrite !filter_app.
    change (filter Producer.is_error setup_logs) with (@nil Producer.log_entry).
    change (filter Producer.is_opening setup_logs) with (@nil Producer.log_entry).
    cbn [app]. rewrite Herr, Hcount.
    repeat split.
Qed.

(** X23: what holds of every run of [main], whatever the world does.  The
    producer is closed at most once; at most [n] messages are sent in a run
    cut after [n] turns of the loop; [main] returns normally only after its
    set-up went through, the producer was closed and the two closing lines
    were logged last; and a run that ends without closing anything has sent
    nothing. *)
Theorem main_returns_only_after_close (n fuel : nat) :
  let r := main n fuel in
  (Producer.close_calls r <= 1)%nat /\
  (length (Producer.sent r) <= n)%nat /\
  (Producer.exit r = Producer.Returned ->
   ready /\ Producer.close_calls r = 1%nat /\
   exists l, Producer.logs r = l ++ Producer.closing) /\
  (Producer.close_calls r = 0%nat -> Producer.exit r <> Producer.Running ->
   Producer.sent r = []).
Proof.
  intros r. unfold r, Producer.main, Producer.ready,
    Producer.get_kafka_topic, Producer.get_message_interval.
  destruct verify_services as [e |];
    [cbn; repeat split; try lia; discriminate |].
  destruct data_file_exists;
    [| cbn; repeat split; try lia; discriminate].
  cbn [negb].
  destruct create_kafka_producer as [e | [|]];
    [cbn; repeat split; try lia; discriminate | |
     cbn; repeat split; try lia; discriminate].
  destruct (create_kafka_topic (Producer.SMOKER_TOPIC env)) as [e |].
  { destruct (Producer.is_Exception e);
      cbn; repeat split; try lia; discriminate. }
  pose proof (send_loop_length fuel interval n 0 Producer.gen_start) as Hlen.
  destruct (send_loop n fuel 0 Producer.gen_start interval) as [[l messages] end_].
  cbn [fst snd] in Hlen.
  assert (Hclosing : forall (a b c : list Producer.log_entry),
            exists l0, a ++ b ++ c = l0 ++ c).
  { intros a b c. exists (a ++ b). rewrite app_assoc. reflexivity. }
  assert (Hclosing' : forall (a b c : list Producer.log_entry) x,
            exists l0, a ++ b ++ x :: c = l0 ++ c).
  { intros a b c x. exists (a ++ b ++ [x]). rewrite <- !app_assoc. reflexivity. }
  destruct end_ as [e |].
  - destruct e; cbn [Producer.is_Exception Producer.exit Producer.sent
                     Producer.close_calls Producer.logs];
      (split; [lia |]); (split; [exact Hlen |]);
      (split;
       [ intros Hret;
         first [ discriminate Hret
               | split; [repeat split |];
                 split; [reflexivity |];
                 first [apply Hclosing' | apply Hclosing] ]
       | intros Hc; discriminate Hc ]).
  - cbn [Producer.exit Producer.sent Producer.close_calls Producer.logs].
    split; [lia |]. split; [exact Hlen |].
    split; [intros Hret; discriminate Hret |].
    intros _ Hrun. contradiction Hrun. reflexivity.
Qed.

End ProducerWorld.

Lemma generator_raises_only_exits_witness :
  Producer.is_Exception (Producer.SystemExit 3) = false.
Proof.
  refine (proj1 (generator_raises_only_exits
                   (fun _ => inr [Producer.sample_row "hot"])
                   Producer.sample_clock Producer.sample_float
                   1 Producer.gen_start _ (Producer.SystemExit 3) eq_refl)).
Defined.

Lemma next_row_with_temperature_decides_witness :
  Producer.generate_messages (fun _ => inr []) Producer.sample_clock
    Producer.sample_float 0
    {| Producer.passes := 1; Producer.clock := 2;
       Producer.pending :=
         Some ([Producer.bare_row] ++ Producer.sample_row "310"
                 :: [Producer.sample_row "hot"]) |} =
  ([(WARNING, Producer.MissingTemperature Producer.bare_row);
    (DEBUG, Producer.GeneratedMessage
              (Producer.message_of "2025-01-01T15:00:02" 310))],
   Producer.Yielded (Producer.message_of "2025-01-01T15:00:02" 310)
     {| Producer.passes := 1; Producer.clock := 3;
        Producer.pending := Some [Producer.sample_row "hot"] |}).
Proof.
  exact (next_row_with_temperature_decides (fun _ => inr []) Producer.sample_clock
           Producer.sample_float 0
           {| Producer.passes := 1; Producer.clock := 2;
              Producer.pending :=
                Some ([Producer.bare_row] ++ Producer.sample_row "310"
                        :: [Producer.sample_row "hot"]) |}
           [Producer.bare_row] (Producer.sample_row "310")
           [Producer.sample_row "hot"] (PStr "310") eq_refl eq_refl eq_refl).
Defined.

Lemma generated_message_accepted_witness :
  exists q,
    Producer.message_of "2025-01-01T15:00:00" 200.5 =
      Producer.message_of (Producer.sample_clock 0) q /\
    1%nat = 1%nat /\
    forall (env : environ) (json_loads : string -> option pyval) (text : string)
           (window_size : Z) (w : deque),
      json_loads text = Some (Producer.message_of "2025-01-01T15:00:00" 200.5) ->
      let o := process_message env json_loads text window_size w in
      st o = deque_append (PNum q) w /\
      filter is_high_temp_alert (logs o) =
      if Qltb 300 q
      then [(WARNING, HighTempAlert (PStr (Producer.sample_clock 0)) (PNum q))]
      else [].
Proof.
  exact (generated_message_accepted Producer.steady_file Producer.sample_clock
           Producer.sample_float 1 Producer.gen_start
           {| Producer.passes := 1; Producer.clock := 1;
              Producer.pending := Some [Producer.sample_row "310"] |}
           [(INFO, Producer.OpeningDataFile);
            (DEBUG, Producer.GeneratedMessage
                      (Producer.message_of "2025-01-01T15:00:00" 200.5))]
           (Producer.message_of "2025-01-01T15:00:00" 200.5) eq_refl).
Defined.

Lemma producer_cycles_through_file_witness :
  Producer.sent
    (Producer.main Producer.sample_env Producer.steady_file Producer.sample_clock
       Producer.sample_float Producer.quiet_send Producer.quiet_sleep
       None true (inr true) (fun _ => None) 3 1) =
  [Producer.message_of "2025-01-01T15:00:00" 200.5;
   Producer.message_of "2025-01-01T15:00:01" 310;
   Producer.message_of "2025-01-01T15:00:02" 200.5].
Proof.
  refine (proj1 (proj2 (producer_cycles_through_file
                          Producer.steady_file Producer.sample_clock
                          Producer.sample_float Producer.sample_env
                          Producer.quiet_send Producer.quiet_sleep
                          None true (inr true) (fun _ => None)
                          Producer.sample_rows [200.5; 310] 3 1
                          (conj eq_refl (conj eq_refl (conj eq_refl eq_refl)))
                          (fun _ => eq_refl) eq_refl _ _
                          (fun _ _ _ => eq_refl) (fun _ _ => eq_refl) _))).
  - discriminate.
  - unfold Producer.sleep_max. cbn. lia.
  - lia.
Defined.

Lemma interrupt_stops_producer_witness :
  Producer.exit
    (Producer.main Producer.sample_env Producer.steady_file Producer.sample_clock
       Producer.sample_float Producer.quiet_send
       (fun k => if Nat.eqb k 1 then Some Producer.KeyboardInterrupt else None)
       None true (inr true) (fun _ => None) 5 1) = Producer.Returned /\
  Producer.sent
    (Producer.main Producer.sample_env Producer.steady_file Producer.sample_clock
       Producer.sample_float Producer.quiet_send
       (fun k => if Nat.eqb k 1 then Some Producer.KeyboardInterrupt else None)
       None true (inr true) (fun _ => None) 5 1) =
  [Producer.message_of "2025-01-01T15:00:00" 200.5;
   Producer.message_of "2025-01-01T15:00:01" 310].
Proof.
  refine ((fun H => conj (proj1 H) (proj1 (proj2 H)))
            (interrupt_stops_producer
               Producer.steady_file Producer.sample_clock
               Producer.sample_float Producer.sample_env
               Producer.quiet_send
               (fun k => if Nat.eqb k 1 then Some Producer.KeyboardInterrupt
                         else None)
               None true (inr true) (fun _ => None)
               Producer.sample_rows [200.5; 310] 1 5 1
               (conj eq_refl (conj eq_refl (conj eq_refl eq_refl)))
               (fun _ => eq_refl) eq_refl _ _ (fun _ _ _ => eq_refl) _
               eq_refl _ _)).
  - discriminate.
  - unfold Producer.sleep_max. cbn. lia.
  - intros i Hi. destruct i as [| i]; [reflexivity | lia].
  - lia.
  - lia.
Defined.

Lemma failed_send_ends_producer_witness :
  filter Producer.is_error
    (Producer.logs
       (Producer.main Producer.sample_env Producer.steady_file Producer.sample_clock
          Producer.sample_float
          (fun k _ => if Nat.eqb k 1
                      then Some (Producer.KafkaError "no broker") else None)
          Producer.quiet_sleep None true (inr true) (fun _ => None) 5 1)) =
  [(ERROR, Producer.ProductionError (Producer.KafkaError "no broker"))].
Proof.
  refine (proj2 (proj2 (proj2
            (failed_send_ends_producer
               Producer.steady_file Producer.sample_clock
               Producer.sample_float Producer.sample_env
               (fun k _ => if Nat.eqb k 1
                           then Some (Producer.KafkaError "no broker") else None)
               Producer.quiet_sleep None true (inr true) (fun _ => None)
               Producer.sample_rows [200.5; 310] 1 5 1
               (Producer.KafkaError "no broker")
               (conj eq_refl (conj eq_refl (conj eq_refl eq_refl)))
               (fun _ => eq_refl) eq_refl _ _ _ (fun _ _ => eq_refl)
               eq_refl eq_refl _ _)))).
  - discriminate.
  - unfold Producer.sleep_max. cbn. lia.
  - intros i m Hi. destruct i as [| i]; [reflexivity | lia].
  - lia.
  - lia.
Defined.

Lemma refused_interval_sends_one_witness :
  Producer.sent
    (Producer.main Producer.hasty_env Producer.steady_file Producer.sample_clock
       Producer.sample_float Producer.quiet_send Producer.quiet_sleep
       None true (inr true) (fun _ => None) 4 1) =
  [Producer.message_of "2025-01-01T15:00:00" 200.5].
Proof.
  refine (f_equal Producer.sent
            (refused_interval_sends_one
               Producer.steady_file Producer.sample_clock
               Producer.sample_float Producer.hasty_env
               Producer.quiet_send Producer.quiet_sleep
               None true (inr true) (fun _ => None) 4 1
               [(INFO, Producer.OpeningDataFile);
                (DEBUG, Producer.GeneratedMessage
                          (Producer.message_of "2025-01-01T15:00:00" 200.5))]
               (Producer.message_of "2025-01-01T15:00:00" 200.5)
               {| Producer.passes := 1; Producer.clock := 1;
                  Producer.pending := Some [Producer.sample_row "310"] |}
               (conj eq_refl (conj eq_refl (conj eq_refl eq_refl)))
               (or_introl eq_refl) eq_refl eq_refl _)).
  lia.
Defined.

Lemma bad_temperature_stops_producer_witness :
  Producer.exit
    (Producer.main Producer.sample_env
       (fun _ => inr [Producer.sample_row "200.5"; Producer.sample_row "hot";
                      Producer.sample_row "310"])
       Producer.sample_clock Producer.sample_float
       Producer.quiet_send Producer.quiet_sleep
       None true (inr true) (fun _ => None) 5 1) =
    Producer.Exited (Producer.SystemExit 3) /\
  Producer.sent
    (Producer.main Producer.sample_env
       (fun _ => inr [Producer.sample_row "200.5"; Producer.sample_row "hot";
                      Producer.sample_row "310"])
       Producer.sample_clock Producer.sample_float
       Producer.quiet_send Producer.quiet_sleep
       None true (inr true) (fun _ => None) 5 1) =
    [Producer.message_of "2025-01-01T15:00:00" 200.5].
Proof.
  refine ((fun H => conj (proj1 H) (proj1 (proj2 H)))
            (bad_temperature_stops_producer
               (fun _ => inr [Producer.sample_row "200.5"; Producer.sample_row "hot";
                              Producer.sample_row "310"])
               Producer.sample_clock Producer.sample_float Producer.sample_env
               Producer.quiet_send Producer.quiet_sleep
               None true (inr true) (fun _ => None)
               [Producer.sample_row "200.5"] (Producer.sample_row "hot")
               [Producer.sample_row "310"] [200.5] (PStr "hot") Producer.ValueError
               5 1
               (conj eq_refl (conj eq_refl (conj eq_refl eq_refl)))
               eq_refl eq_refl eq_refl eq_refl _
               (fun _ _ _ => eq_refl) (fun _ _ => eq_refl) _ _)).
  - unfold Producer.sleep_max. cbn. lia.
  - cbn. lia.
  - lia.
Defined.

Lemma file_without_temperature_spins_witness :
  Producer.exit
    (Producer.main Producer.sample_env (fun _ => inr [Producer.bare_row])
       Producer.sample_clock Producer.sample_float
       Producer.quiet_send Producer.quiet_sleep
       None true (inr true) (fun _ => None) 2 7) = Producer.Running /\
  Producer.sent
    (Producer.main Producer.sample_env (fun _ => inr [Producer.bare_row])
       Producer.sample_clock Producer.sample_float
       Producer.quiet_send Producer.quiet_sleep
       None true (inr true) (fun _ => None) 2 7) = [].
Proof.
  refine ((fun H => conj (proj1 H) (proj1 (proj2 H)))
            (file_without_temperature_spins
               (fun _ => inr [Producer.bare_row])
               Producer.sample_clock Producer.sample_float Producer.sample_env
               Producer.quiet_send Producer.quiet_sleep
               None true (inr true) (fun _ => None) 2 7
               (conj eq_refl (conj eq_refl (conj eq_refl eq_refl)))
               (fun _ => ex_intro _ [Producer.bare_row] (conj eq_refl eq_refl)))).
Defined.
